(** * eksctl: cluster logging reconciliation, cluster listing and waiting

    A shallow embedding of
    - [pkg/apis/eksctl.io/v1alpha5] defaults ([SetClusterConfigDefaults]),
    - [pkg/eks/eks.go] (describing, listing, waiting, updating the logging
      configuration of a control plane),
    - [pkg/ctl/utils/enable_logging.go] ([doEnableLogging]),
    followed by the properties proved about them.

    Conventions of the embedding.
    - A Go pointer that the code tests against [nil] or dereferences is an
      [option]; dereferencing [None] is the outcome [Panic].
    - A Go [error] is a value of the type [error] below, with one constructor
      for each place of the source that builds an error; [nil] is [None].
    - [sets.String] of k8s.io/apimachinery is a [gset string]; its methods are
      written out in module [sets] the way the library implements them.
    - Calls to the AWS API and to the other collaborators are functions of
      an abstract world [W], threaded through the code in program order.
    - A run of the loop of [WaitForControlPlane] is given by the sequence of
      cases its [select] takes, or by the sequence of its [select]s with
      the readiness of the two channels and the choice of the runtime. *)

From Stdlib Require Import ZArith.
From stdpp Require Import gmap strings list sorting.

Open Scope string_scope.
Open Scope list_scope.

(** ** Errors and outcomes *)

(** [time.Duration]: a count of nanoseconds (int64). *)
Definition Duration := Z.

Inductive error : Type :=
  (** an error value returned by a collaborator (AWS SDK, client-go, ...) *)
  | ErrExternal (msg : string)
  (** [errors.Wrap(cause, message)] with a non-nil [cause] *)
  | ErrWrap (cause : error) (message : string)
  (** [fmt.Errorf("log type %q is unknown", logType)] *)
  | ErrLogTypeUnknown (logType : string)
  (** [fmt.Errorf("status of cluster %q is %q, has to be %q", name, status, wanted)] *)
  | ErrClusterStatus (name status wanted : string)
  (** [fmt.Errorf("unexpected response from EKS API - nil string")] *)
  | ErrNilString
  (** [fmt.Errorf("timed out waiting for control plane %q after %s", name, timeout)] *)
  | ErrTimedOut (name : string) (timeout : Duration).

(** What a call of a Go function comes to: a value, a non-nil error, or a
    run-time panic (nil dereference, closing a closed channel). *)
Inductive result (A : Type) : Type :=
  | Ok (a : A)
  | Err (e : error)
  | Panic.
Arguments Ok {A} a.
Arguments Err {A} e.
Arguments Panic {A}.

(** ** k8s.io/apimachinery/pkg/util/sets: [sets.String] *)

Module sets.

(** [func (s String) Insert(items ...string)] *)
Definition Insert (s : gset string) (items : list string) : gset string :=
  foldl (λ acc item, {[item]} ∪ acc) s items.

(** [func NewString(items ...string) String] *)
Definition NewString (items : list string) : gset string := Insert ∅ items.

(** [func (s String) Has(item string) bool] *)
Definition Has (s : gset string) (item : string) : bool :=
  bool_decide (item ∈ s).

(** [func (s String) Len() int] *)
Definition Len (s : gset string) : nat := size s.

(** [func (s String) Difference(s2 String) String]: the keys of [s] that
    [s2] does not have, inserted one by one into a fresh set. *)
Definition Difference (s s2 : gset string) : gset string :=
  foldr (λ key acc, if Has s2 key then acc else {[key]} ∪ acc) ∅ (elements s).

(** [func (s1 String) IsSuperset(s2 String) bool] *)
Definition IsSuperset (s1 s2 : gset string) : bool :=
  forallb (Has s1) (elements s2).

(** [func (s1 String) Equal(s2 String) bool]:
    [len(s1) == len(s2) && s1.IsSuperset(s2)] *)
Definition Equal (s1 s2 : gset string) : bool :=
  Nat.eqb (Len s1) (Len s2) && IsSuperset s1 s2.

(** [func (s String) List() []string]: the keys, sorted by [sort.Strings],
    that is by Go's [<] on strings, the lexicographic order on bytes. *)
Definition List (s : gset string) : list string :=
  merge_sort String.le (elements s).

End sets.

(** ** pkg/apis/eksctl.io/v1alpha5 *)

Module api.

(** The fields of the configuration types that the code below reads. *)
Record ClusterMeta : Type := {
  Name : string;
  Region : string
}.

(** The provider's settings: what [Provider.Region()], [Provider.Profile()]
    and [Provider.WaitTimeout()] return. *)
Record ProviderConfig : Type := {
  Provider_Region : string;
  Provider_Profile : string;
  Provider_WaitTimeout : Duration
}.

Record ClusterCloudWatchLogging : Type := {
  EnableTypes : list string
}.

Record ClusterCloudWatch : Type := {
  ClusterLogging : option ClusterCloudWatchLogging
}.

Record ClusterConfig : Type := {
  Metadata : ClusterMeta;
  CloudWatch : option ClusterCloudWatch
}.

(** [cfg.CloudWatch != nil && cfg.CloudWatch.ClusterLogging != nil], and
    then the list [cfg.CloudWatch.ClusterLogging.EnableTypes]. *)
Definition declaredEnableTypes (cfg : ClusterConfig) : option (list string) :=
  match CloudWatch cfg with
  | Some cw =>
      match ClusterLogging cw with
      | Some cl => Some (EnableTypes cl)
      | None => None
      end
  | None => None
  end.

(** The assignment [cfg.CloudWatch.ClusterLogging.EnableTypes = l]. *)
Definition setEnableTypes (cfg : ClusterConfig) (l : list string) : ClusterConfig :=
  {| Metadata := Metadata cfg;
     CloudWatch := Some {| ClusterLogging := Some {| EnableTypes := l |} |} |}.

Definition SupportedCloudWatchClusterLoggingTypes : list string :=
  ["api"; "audit"; "authenticator"; "controllerManager"; "scheduler"].

(** [switch logType { case "all", "*": ... }] *)
Definition isWildcard (logType : string) : bool :=
  String.eqb logType "all" || String.eqb logType "*".

(** First loop of [SetClusterConfigDefaults]. The [range] expression is
    evaluated once, so the loop runs over the list as declared while the
    field is overwritten. *)
Definition expandWildcards (declared : list string) : list string :=
  foldl (λ enableTypes logType,
           if isWildcard logType
           then SupportedCloudWatchClusterLoggingTypes
           else enableTypes)
        declared declared.

(** Inner loop of the validation: [isUnknown] after comparing [logType]
    with every known type. *)
Definition isUnknown (logType : string) : bool :=
  foldl (λ unknown knownLogType,
           if String.eqb logType knownLogType then false else unknown)
        true SupportedCloudWatchClusterLoggingTypes.

(** Second loop: returns at the first unknown entry. *)
Fixpoint validateLogTypes (enableTypes : list string) : option error :=
  match enableTypes with
  | [] => None
  | logType :: rest =>
      if isUnknown logType
      then Some (ErrLogTypeUnknown logType)
      else validateLogTypes rest
  end.

(** [func SetClusterConfigDefaults(cfg *ClusterConfig) error]: the
    configuration as the call leaves it, and the error returned. *)
Definition SetClusterConfigDefaults (cfg : ClusterConfig) : ClusterConfig * option error :=
  match declaredEnableTypes cfg with
  | Some declared =>
      let enableTypes := expandWildcards declared in
      (setEnableTypes cfg enableTypes, validateLogTypes enableTypes)
  | None => (cfg, None)
  end.

(** Modelled from the spec: the boolean-pointer helpers [Enabled],
    [Disabled], [IsEnabled] and [IsDisabled] of the api package
    (types.go, not among the sources): [Enabled()] points to [true],
    [Disabled()] to [false]; [IsEnabled] holds of a non-nil pointer to
    [true], [IsDisabled] of a non-nil pointer to [false]. *)
Definition Enabled : option bool := Some true.

(** Modelled from the spec: [Disabled()] of the api package, a pointer to
    [false]. *)
Definition Disabled : option bool := Some false.

(** Modelled from the spec: [IsEnabled] of the api package, true of a
    non-nil pointer to [true]. *)
Definition IsEnabled (v : option bool) : bool :=
  match v with Some b => b | None => false end.

(** Modelled from the spec: [IsDisabled] of the api package, true of a
    non-nil pointer to [false]. *)
Definition IsDisabled (v : option bool) : bool :=
  match v with Some b => negb b | None => false end.

(** Modelled from the spec: [IsSetAndNonEmptyString] of the api package
    (not among the sources): the token is present and not empty. *)
Definition IsSetAndNonEmptyString (s : option string) : bool :=
  match s with
  | Some s' => negb (String.eqb s' EmptyString)
  | None => false
  end.


(** The fields of a node group that [SetNodeGroupDefaults] reads or
    writes. *)
Record NodeGroupSGs : Type := {
  SGs_AttachIDs : list string;
  SGs_WithLocal : option bool;
  SGs_WithShared : option bool
}.

Record NodeGroupSSH : Type := {
  SSH_Allow : option bool;
  SSH_PublicKeyPath : option string;
  SSH_PublicKey : option string;
  SSH_PublicKeyName : option string
}.

Record NodeGroupIAMAddonPolicies : Type := {
  Addon_ImageBuilder : option bool;
  Addon_AutoScaler : option bool;
  Addon_ExternalDNS : option bool;
  Addon_CertManager : option bool;
  Addon_ALBIngress : option bool;
  Addon_XRay : option bool;
  Addon_CloudWatch : option bool;
  Addon_EBS : option bool;
  Addon_FSX : option bool;
  Addon_EFS : option bool
}.

Record NodeGroupIAM : Type := {
  IAM_WithAddonPolicies : NodeGroupIAMAddonPolicies
}.

Record NodeGroup : Type := {
  NG_InstanceType : string;
  NG_AMIFamily : string;
  NG_AMI : string;
  NG_SecurityGroups : option NodeGroupSGs;
  NG_SSH : option NodeGroupSSH;
  NG_VolumeType : option string;
  NG_IAM : option NodeGroupIAM
}.

Section NodeGroupDefaults.

(** Of the api package, not among the sources. *)
Variable HasMixedInstances : NodeGroup → bool.
Variable countEnabledFields : list (option string) → nat.
Variables DefaultNodeType DefaultNodeImageFamily : string.
Variables DefaultNodeSSHPublicKeyPath DefaultNodeVolumeType : string.

(** [if p == nil { p = Disabled() }] *)
Definition orDisabled (p : option bool) : option bool :=
  match p with
  | Some b => Some b
  | None => Disabled
  end.

(** [if p == nil { p = Enabled() }] *)
Definition orEnabled (p : option bool) : option bool :=
  match p with
  | Some b => Some b
  | None => Enabled
  end.

(** Lines 40-52 *)
Definition defaultInstance (ng : NodeGroup) : NodeGroup :=
  {| NG_InstanceType :=
       if String.eqb (NG_InstanceType ng) EmptyString
       then (if HasMixedInstances ng then "mixed" else DefaultNodeType)
       else NG_InstanceType ng;
     NG_AMIFamily :=
       if String.eqb (NG_AMIFamily ng) EmptyString
       then DefaultNodeImageFamily
       else NG_AMIFamily ng;
     NG_AMI :=
       if String.eqb (NG_AMI ng) EmptyString then "static" else NG_AMI ng;
     NG_SecurityGroups := NG_SecurityGroups ng;
     NG_SSH := NG_SSH ng;
     NG_VolumeType := NG_VolumeType ng;
     NG_IAM := NG_IAM ng |}.

(** Lines 54-64 *)
Definition defaultSecurityGroups (sgs : option NodeGroupSGs) : NodeGroupSGs :=
  let sgs :=
    match sgs with
    | Some sgs => sgs
    | None => {| SGs_AttachIDs := []; SGs_WithLocal := None; SGs_WithShared := None |}
    end in
  {| SGs_AttachIDs := SGs_AttachIDs sgs;
     SGs_WithLocal := orEnabled (SGs_WithLocal sgs);
     SGs_WithShared := orEnabled (SGs_WithShared sgs) |}.

(** Lines 66-85 *)
Definition defaultSSH (ssh : option NodeGroupSSH) : NodeGroupSSH :=
  let ssh :=
    match ssh with
    | Some ssh => ssh
    | None => {| SSH_Allow := Disabled; SSH_PublicKeyPath := None;
                 SSH_PublicKey := None; SSH_PublicKeyName := None |}
    end in
  let numSSHFlagsEnabled :=
    countEnabledFields
      [SSH_PublicKeyName ssh; SSH_PublicKeyPath ssh; SSH_PublicKey ssh] in
  if decide (0 < numSSHFlagsEnabled)
  then {| SSH_Allow := Enabled;
          SSH_PublicKeyPath := SSH_PublicKeyPath ssh;
          SSH_PublicKey := SSH_PublicKey ssh;
          SSH_PublicKeyName := SSH_PublicKeyName ssh |}
  else if IsEnabled (SSH_Allow ssh)
  then {| SSH_Allow := SSH_Allow ssh;
          SSH_PublicKeyPath := Some DefaultNodeSSHPublicKeyPath;
          SSH_PublicKey := SSH_PublicKey ssh;
          SSH_PublicKeyName := SSH_PublicKeyName ssh |}
  else {| SSH_Allow := Disabled;
          SSH_PublicKeyPath := SSH_PublicKeyPath ssh;
          SSH_PublicKey := SSH_PublicKey ssh;
          SSH_PublicKeyName := SSH_PublicKeyName ssh |}.

(** Lines 91-123 *)
Definition defaultIAM (iam : option NodeGroupIAM) : NodeGroupIAM :=
  let policies :=
    match iam with
    | Some iam => IAM_WithAddonPolicies iam
    | None =>
        {| Addon_ImageBuilder := None; Addon_AutoScaler := None;
           Addon_ExternalDNS := None; Addon_CertManager := None;
           Addon_ALBIngress := None; Addon_XRay := None;
           Addon_CloudWatch := None; Addon_EBS := None;
           Addon_FSX := None; Addon_EFS := None |}
    end in
  {| IAM_WithAddonPolicies :=
       {| Addon_ImageBuilder := orDisabled (Addon_ImageBuilder policies);
          Addon_AutoScaler := orDisabled (Addon_AutoScaler policies);
          Addon_ExternalDNS := orDisabled (Addon_ExternalDNS policies);
          Addon_CertManager := orDisabled (Addon_CertManager policies);
          Addon_ALBIngress := orDisabled (Addon_ALBIngress policies);
          Addon_XRay := orDisabled (Addon_XRay policies);
          Addon_CloudWatch := orDisabled (Addon_CloudWatch policies);
          Addon_EBS := orDisabled (Addon_EBS policies);
          Addon_FSX := orDisabled (Addon_FSX policies);
          Addon_EFS := orDisabled (Addon_EFS policies) |} |}.

(** [func SetNodeGroupDefaults(_ int, ng *NodeGroup) error]: the node
    group as the call leaves it, and the error returned. *)
Definition SetNodeGroupDefaults (ng : NodeGroup) : NodeGroup * option error :=
  let ng := defaultInstance ng in
  ({| NG_InstanceType := NG_InstanceType ng;
      NG_AMIFamily := NG_AMIFamily ng;
      NG_AMI := NG_AMI ng;
      NG_SecurityGroups := Some (defaultSecurityGroups (NG_SecurityGroups ng));
      NG_SSH := Some (defaultSSH (NG_SSH ng));
      NG_VolumeType :=
        if negb (IsSetAndNonEmptyString (NG_VolumeType ng))
        then Some DefaultNodeVolumeType
        else NG_VolumeType ng;
      NG_IAM := Some (defaultIAM (NG_IAM ng)) |},
   None).

End NodeGroupDefaults.

End api.

(** ** The parts of github.com/aws/aws-sdk-go/service/eks that are used *)

Module awseks.

Definition ClusterStatusActive : string := "ACTIVE".

Record LogSetup : Type := {
  LogSetup_Enabled : option bool;
  LogSetup_Types : list (option string)
}.

Record Logging : Type := {
  ClusterLogging : list (option LogSetup)
}.

Record Cluster : Type := {
  Cluster_Name : option string;
  Cluster_Status : option string;
  Cluster_Logging : option Logging
}.

Record DescribeClusterInput : Type := {
  DescribeCluster_Name : option string
}.

Record DescribeClusterOutput : Type := {
  DescribeCluster_Cluster : option Cluster
}.

Record ListClustersInput : Type := {
  ListClusters_MaxResults : option Z;
  ListClusters_NextToken : option string
}.

Record ListClustersOutput : Type := {
  Clusters : list (option string);
  NextToken : option string
}.

Record UpdateClusterConfigInput : Type := {
  UpdateClusterConfig_Name : option string;
  UpdateClusterConfig_Logging : option Logging
}.

Record Update : Type := {
  Update_Id : option string;
  Update_Type : option string
}.

Record UpdateClusterConfigOutput : Type := {
  UpdateClusterConfig_Update : option Update
}.

(** [aws.StringSlice]: a slice of pointers to the strings. *)
Definition StringSlice (l : list string) : list (option string) := Some <$> l.

End awseks.

(** ** The log *)

(** One constructor for each logging call of the code, with the arguments
    the call formats. *)
Inductive LogEntry : Type :=
  (** [logger.Critical("error listing clusters in %q region: %s", region, err.Error())] *)
  | LogCriticalListing (region : string) (err : error)
  (** [logger.Info("using region %s", meta.Region)] *)
  | LogInfoRegion (region : string)
  (** [cmdutils.LogIntendedAction(rc.Plan, "update CloudWatch logging ...")] *)
  | LogIntendedAction (plan : bool) (name region toEnable toDisable : string)
  (** [logger.Success("CloudWatch logging for cluster %q in %q is already up-to-date")] *)
  | LogSuccessUpToDate (name region : string)
  (** [logger.Success("configured CloudWatch logging for cluster %q in %q (%s & %s)")] *)
  | LogSuccessConfigured (name region enabled disabled : string)
  (** [cmdutils.LogPlanModeWarning(plan)] *)
  | LogPlanModeWarning (plan : bool).

(** ** State and the monad of the effectful code *)

Record State (W : Type) : Type := {
  world : W;
  logs : list LogEntry
}.
Arguments world {W} _.
Arguments logs {W} _.

Definition M (W A : Type) : Type := State W → result A * State W.

#[global] Instance M_ret {W} : MRet (M W) := λ A a s, (Ok a, s).

#[global] Instance M_bind {W} : MBind (M W) := λ A B k m s,
  match m s with
  | (Ok a, s') => k a s'
  | (Err e, s') => (Err e, s')
  | (Panic, s') => (Panic, s')
  end.

(** [return err] with a non-nil error. *)
Definition fail {W A} (e : error) : M W A := λ s, (Err e, s).

Definition panic {W A} : M W A := λ s, (Panic, s).

(** The outcome of a computation that touches neither world nor log. *)
Definition outcome {W A} (r : result A) : M W A := λ s, (r, s).

(** [*p] *)
Definition deref {W A} (p : option A) : M W A :=
  match p with
  | Some a => mret a
  | None => panic
  end.

(** A call of a collaborator, which only sees the world. *)
Definition call {W A} (f : W → result A * W) : M W A := λ s,
  let '(r, w) := f (world s) in (r, {| world := w; logs := logs s |}).

Definition log {W} (entry : LogEntry) : M W unit := λ s,
  (Ok tt, {| world := world s; logs := logs s ++ [entry] |}).

(** [if err != nil { return errors.Wrap(err, message) }] *)
Definition wrapping {W A} (m : M W A) (message : string) : M W A := λ s,
  match m s with
  | (Err e, s') => (Err (ErrWrap e message), s')
  | other => other
  end.

(** The EKS client of a provider ([eksiface.EKSAPI]); the first argument is
    the region the client was created for. *)
Record EKSAPI (W : Type) : Type := {
  DescribeCluster :
    string → awseks.DescribeClusterInput → W → result awseks.DescribeClusterOutput * W;
  ListClusters :
    string → awseks.ListClustersInput → W → result awseks.ListClustersOutput * W;
  UpdateClusterConfig :
    string → awseks.UpdateClusterConfigInput → W → result awseks.UpdateClusterConfigOutput * W
}.
Arguments DescribeCluster {W} _.
Arguments ListClusters {W} _.
Arguments UpdateClusterConfig {W} _.

(** ** pkg/eks/eks.go *)

Module eks.

Record ClusterProvider : Type := {
  Provider : api.ProviderConfig
}.

(** [eks.New(spec, clusterSpec)] *)
Definition New (spec : api.ProviderConfig) : ClusterProvider :=
  {| Provider := spec |}.

Definition region (c : ClusterProvider) : string :=
  api.Provider_Region (Provider c).

(** A channel of errors, as far as sending and closing go. *)
Inductive chan : Type :=
  | NilChan
  | OpenChan (queue : list error)
  | ClosedChan (queue : list error).

(** [close(ch)] panics on a nil and on an already closed channel. *)
Definition close (ch : chan) : option chan :=
  match ch with
  | OpenChan queue => Some (ClosedChan queue)
  | NilChan | ClosedChan _ => None
  end.

(** What one [select] of the loop of [WaitForControlPlane] receives: a
    tick, together with what the call [clientSet.ServerVersion()] made in
    that case returns, or the firing of the timer. *)
Inductive SelectCase : Type :=
  | TickerC (serverVersionErr : option error)
  | TimerC.

(** The loop of [WaitForControlPlane] either returns, or is blocked in
    the [select] when the recorded events are used up. *)
Inductive waitOutcome : Type :=
  | Returned (err : option error)
  | Blocked.

Section WithProvider.

Context {W : Type}.
Variable EKS : EKSAPI W.
(** [api.SupportedRegions()], not among the sources. *)
Variable SupportedRegions : list string.
(** [waiters.Wait] on the update of a cluster (pkg/utils/waiters), as
    reached through [waitForUpdateToSucceed]: cluster name, update,
    timeout. *)
Variable waiters_Wait : string → awseks.Update → Duration → W → result unit * W.

(** [DescribeControlPlane] *)
Definition DescribeControlPlane (c : ClusterProvider) (cl : api.ClusterMeta)
  : M W (option awseks.Cluster) :=
  let input := {| awseks.DescribeCluster_Name := Some (api.Name cl) |} in
  output ← wrapping (call (DescribeCluster EKS (region c) input))
                    "unable to describe cluster control plane";
  mret (awseks.DescribeCluster_Cluster output).

(** [DescribeControlPlaneMustBeActive] *)
Definition DescribeControlPlaneMustBeActive (c : ClusterProvider) (cl : api.ClusterMeta)
  : M W awseks.Cluster :=
  clusterPtr ← wrapping (DescribeControlPlane c cl)
                        "unable to describe cluster control plane";
  cluster ← deref clusterPtr;
  status ← deref (awseks.Cluster_Status cluster);
  if negb (String.eqb status awseks.ClusterStatusActive)
  then
    name ← deref (awseks.Cluster_Name cluster);
    fail (ErrClusterStatus name status awseks.ClusterStatusActive)
  else mret cluster.

(** Inner loop of [GetCurrentClusterConfigForLogging], over [i.Types]. *)
Fixpoint collectTypes (enabledFlag : option bool) (types : list (option string))
    (acc : gset string * gset string) : result (gset string * gset string) :=
  match types with
  | [] => Ok acc
  | None :: _ => Err ErrNilString
  | Some t :: rest =>
      let enabled :=
        if api.IsEnabled enabledFlag then sets.Insert acc.1 [t] else acc.1 in
      let disabled :=
        if api.IsDisabled enabledFlag then sets.Insert acc.2 [t] else acc.2 in
      collectTypes enabledFlag rest (enabled, disabled)
  end.

(** Outer loop, over [cluster.Logging.ClusterLogging]. *)
Fixpoint collectLogging (setups : list (option awseks.LogSetup))
    (acc : gset string * gset string) : result (gset string * gset string) :=
  match setups with
  | [] => Ok acc
  | None :: _ => Panic
  | Some i :: rest =>
      match collectTypes (awseks.LogSetup_Enabled i) (awseks.LogSetup_Types i) acc with
      | Ok acc' => collectLogging rest acc'
      | other => other
      end
  end.

(** [GetCurrentClusterConfigForLogging]: the enabled and the disabled
    types. *)
Definition GetCurrentClusterConfigForLogging (c : ClusterProvider) (cl : api.ClusterMeta)
  : M W (gset string * gset string) :=
  let enabled := sets.NewString [] in
  let disabled := sets.NewString [] in
  cluster ← wrapping (DescribeControlPlaneMustBeActive c cl)
                     "unable to retrieve current cluster logging configuration";
  logging ← deref (awseks.Cluster_Logging cluster);
  outcome (collectLogging (awseks.ClusterLogging logging) (enabled, disabled)).

(** [getClustersRequest] *)
Definition getClustersRequest (c : ClusterProvider) (chunkSize : Z) (nextToken : string)
  : M W (list (option string) * option string) :=
  let input :=
    {| awseks.ListClusters_MaxResults := Some chunkSize;
       awseks.ListClusters_NextToken :=
         if negb (String.eqb nextToken EmptyString) then Some nextToken else None |} in
  output ← wrapping (call (ListClusters EKS (region c) input))
                    "listing control planes";
  mret (awseks.Clusters output, awseks.NextToken output).

(** The loop over the names of one page, appending to [*allClusters];
    [*clusterName] panics on a nil name, after the earlier names of the
    page have been appended. *)
Fixpoint appendClusters (c : ClusterProvider) (clusters : list (option string))
    (allClusters : list api.ClusterMeta) : result unit * list api.ClusterMeta :=
  match clusters with
  | [] => (Ok tt, allClusters)
  | None :: _ => (Panic, allClusters)
  | Some clusterName :: rest =>
      appendClusters c rest
        (allClusters ++ [{| api.Name := clusterName; api.Region := region c |}])
  end.

(** The [for] loop of [doListClusters] (lines 152-173); every iteration
    takes one unit of [fuel], and [None] stands for a loop that has not
    ended when the fuel is used up. [*allClusters] is shared with the
    caller, so what was appended stays appended when the loop fails. *)
Fixpoint listPages (fuel : nat) (c : ClusterProvider) (chunkSize : Z) (token : string)
    (allClusters : list api.ClusterMeta) (s : State W)
  : option (result unit * list api.ClusterMeta * State W) :=
  match fuel with
  | O => None
  | S fuel' =>
      match getClustersRequest c chunkSize token s with
      | (Err err, s') => Some (Err err, allClusters, s')
      | (Panic, s') => Some (Panic, allClusters, s')
      | (Ok (clusters, nextToken), s') =>
          match appendClusters c clusters allClusters with
          | (Ok _, allClusters') =>
              if api.IsSetAndNonEmptyString nextToken
              then listPages fuel' c chunkSize (default EmptyString nextToken)
                             allClusters' s'
              else Some (Ok tt, allClusters', s')
          | (other, allClusters') => Some (other, allClusters', s')
          end
      end
  end.

(** The loop over the regions (lines 139-148): the recursive call with
    [eachRegion = false] is the page loop for a provider of that region;
    its error is logged and the loop goes on. *)
Fixpoint listRegions (fuel : nat) (c : ClusterProvider) (chunkSize : Z)
    (regions : list string) (allClusters : list api.ClusterMeta) (s : State W)
  : option (result unit * list api.ClusterMeta * State W) :=
  match regions with
  | [] => Some (Ok tt, allClusters, s)
  | region :: rest =>
      let spec :=
        {| api.Provider_Region := region;
           api.Provider_Profile := api.Provider_Profile (Provider c);
           api.Provider_WaitTimeout := api.Provider_WaitTimeout (Provider c) |} in
      match listPages fuel (New spec) chunkSize EmptyString allClusters s with
      | None => None
      | Some (Ok _, allClusters', s') =>
          listRegions fuel c chunkSize rest allClusters' s'
      | Some (Err err, allClusters', s') =>
          listRegions fuel c chunkSize rest allClusters'
            {| world := world s'; logs := logs s' ++ [LogCriticalListing region err] |}
      | Some (Panic, allClusters', s') => Some (Panic, allClusters', s')
      end
  end.

(** [doListClusters]; the printer is not used by it. *)
Definition doListClusters (fuel : nat) (c : ClusterProvider) (chunkSize : Z)
    (allClusters : list api.ClusterMeta) (eachRegion : bool) (s : State W)
  : option (result unit * list api.ClusterMeta * State W) :=
  if eachRegion
  then listRegions fuel c chunkSize SupportedRegions allClusters s
  else listPages fuel c chunkSize EmptyString allClusters s.

(** The loop of [WaitForControlPlane] (lines 218-229), run on the
    sequence of cases its [select] takes; it gives the outcome and the
    events it has not consumed. *)
Fixpoint waitLoop (c : ClusterProvider) (id : api.ClusterMeta)
    (events : list SelectCase) : waitOutcome * list SelectCase :=
  match events with
  | [] => (Blocked, [])
  | TickerC None :: rest => (Returned None, rest)
  | TickerC (Some _) :: rest => waitLoop c id rest
  | TimerC :: rest =>
      (Returned (Some (ErrTimedOut (api.Name id)
                         (api.Provider_WaitTimeout (Provider c)))), rest)
  end.

(** [WaitForControlPlane]; [first] is what the call of
    [clientSet.ServerVersion()] before the loop returns. *)
Definition WaitForControlPlane (c : ClusterProvider) (id : api.ClusterMeta)
    (first : option error) (events : list SelectCase)
  : waitOutcome * list SelectCase :=
  match first with
  | None => (Returned None, events)
  | Some _ => waitLoop c id events
  end.

Record updateClusterConfigTask : Type := {
  info : string;
  spec : api.ClusterConfig;
  task_call : api.ClusterConfig → M W unit
}.

Definition Describe (t : updateClusterConfigTask) : string := info t.

(** [func (t *updateClusterConfigTask) Do(errs chan error) error]: the
    value returned ([Ok] for [nil]), and the channel afterwards. A panic
    of the wrapped call leaves the function before [close]. *)
Definition Do (t : updateClusterConfigTask) (errs : chan) (s : State W)
  : result unit * chan * State W :=
  match task_call t (spec t) s with
  | (Panic, s') => (Panic, errs, s')
  | (err, s') =>
      match close errs with
      | Some errs' => (err, errs', s')
      | None => (Panic, errs, s')
      end
  end.

(** Lines 273-283 of [UpdateClusterConfigForLogging]: the sets [enabled]
    and [disabled]. *)
Definition enabledTypes (cfg : api.ClusterConfig) : gset string :=
  match api.declaredEnableTypes cfg with
  | Some enableTypes => sets.Insert (sets.NewString []) enableTypes
  | None => sets.NewString []
  end.

Definition disabledTypes (cfg : api.ClusterConfig) : gset string :=
  foldl (λ disabled logType,
           if negb (sets.Has (enabledTypes cfg) logType)
           then sets.Insert disabled [logType]
           else disabled)
        (sets.NewString []) api.SupportedCloudWatchClusterLoggingTypes.

(** Lines 285-299: the input of the update call. *)
Definition loggingUpdateInput (cfg : api.ClusterConfig) : awseks.UpdateClusterConfigInput :=
  {| awseks.UpdateClusterConfig_Name := Some (api.Name (api.Metadata cfg));
     awseks.UpdateClusterConfig_Logging := Some
       {| awseks.ClusterLogging :=
            [ Some {| awseks.LogSetup_Enabled := api.Enabled;
                      awseks.LogSetup_Types :=
                        awseks.StringSlice (sets.List (enabledTypes cfg)) |};
              Some {| awseks.LogSetup_Enabled := api.Disabled;
                      awseks.LogSetup_Types :=
                        awseks.StringSlice (sets.List (disabledTypes cfg)) |} ] |} |}.

(** [waitForUpdateToSucceed]: the message is built from [*update.Type]
    before the waiter runs. *)
Definition waitForUpdateToSucceed (c : ClusterProvider) (clusterName : string)
    (update : option awseks.Update) : M W unit :=
  u ← deref update;
  _ ← deref (awseks.Update_Type u);
  call (waiters_Wait clusterName u (api.Provider_WaitTimeout (Provider c))).

Definition describeTypes (none some : string) (types : list string) : string :=
  if decide (0 < length types)
  then (some ++ String.concat ", " types)%string
  else none.

(** [UpdateClusterConfigForLogging] *)
Definition UpdateClusterConfigForLogging (c : ClusterProvider) (cfg : api.ClusterConfig)
  : M W unit :=
  let enabled := enabledTypes cfg in
  let disabled := disabledTypes cfg in
  let name := api.Name (api.Metadata cfg) in
  output ← call (UpdateClusterConfig EKS (region c) (loggingUpdateInput cfg));
  _ ← waitForUpdateToSucceed c name (awseks.UpdateClusterConfig_Update output);
  log (LogSuccessConfigured name (api.Region (api.Metadata cfg))
         (describeTypes "no types enabled" "enabled types: " (sets.List enabled))
         (describeTypes "no types disabled" "disabled types: " (sets.List disabled))).

End WithProvider.

(** One [select] of the loop of [WaitForControlPlane] with the state of
    its two channels when it runs. [ticker.C] holds a tick, [timer.C]
    holds the value of the timer that has fired, or both do; with both
    ready the Go runtime picks one case by a uniform pseudo-random
    choice, which is recorded here. A [select] that takes the tick case
    makes the call [clientSet.ServerVersion()], whose result is recorded;
    while that call is in flight the timer may fire. *)
Inductive Select : Type :=
  | TickOnly (serverVersionErr : option error) (timerFiresDuringCheck : bool)
  | TimerOnly
  | BothPickTick (serverVersionErr : option error)
  | BothPickTimer.

(** The case the [select] takes. *)
Definition caseTaken (sel : Select) : SelectCase :=
  match sel with
  | TickOnly serverVersionErr _ => TickerC serverVersionErr
  | BothPickTick serverVersionErr => TickerC serverVersionErr
  | TimerOnly | BothPickTimer => TimerC
  end.

(** The timer has fired when the [select] runs: [timer.C] is ready. *)
Definition timerFired (sel : Select) : bool :=
  match sel with
  | TickOnly _ _ => false
  | TimerOnly | BothPickTick _ | BothPickTimer => true
  end.

(** The timer has fired by the end of the iteration of this [select]. *)
Definition deadlinePassed (sel : Select) : bool :=
  match sel with
  | TickOnly _ timerFiresDuringCheck => timerFiresDuringCheck
  | TimerOnly | BothPickTick _ | BothPickTimer => true
  end.

(** What the runtime can produce: [timer.C] keeps its value until it is
    received, so once the timer has fired every later [select] finds it
    ready. *)
Fixpoint timerStaysFired (sels : list Select) : bool :=
  match sels with
  | sel :: (next :: _) as rest =>
      implb (deadlinePassed sel) (timerFired next) && timerStaysFired rest
  | _ => true
  end.

(** The loop of [WaitForControlPlane] (lines 218-229) on the sequence of
    its [select]s: the outcome and the [select]s not reached. *)
Fixpoint waitSelects (c : ClusterProvider) (id : api.ClusterMeta)
    (sels : list Select) : waitOutcome * list Select :=
  match sels with
  | [] => (Blocked, [])
  | sel :: rest =>
      match caseTaken sel with
      | TickerC None => (Returned None, rest)
      | TickerC (Some _) => waitSelects c id rest
      | TimerC =>
          (Returned (Some (ErrTimedOut (api.Name id)
                             (api.Provider_WaitTimeout (Provider c)))), rest)
      end
  end.

(** [WaitForControlPlane] on the sequence of its [select]s; [first] is
    what the call of [clientSet.ServerVersion()] before the loop
    returns. *)
Definition WaitForControlPlaneSelects (c : ClusterProvider) (id : api.ClusterMeta)
    (first : option error) (sels : list Select) : waitOutcome * list Select :=
  match first with
  | None => (Returned None, sels)
  | Some _ => waitSelects c id sels
  end.


(** The SUBNETS and SECURITYGROUPS columns of [addSummaryTableColumns]
    (lines 403-420), from the list of ids of the cluster's VPC
    configuration: the ids that are set and not empty, collected in a set
    and joined by commas. *)
Definition idsColumn (ids : list (option string)) : string :=
  let collected :=
    foldl (λ acc id,
             if api.IsSetAndNonEmptyString id
             then sets.Insert acc [default EmptyString id]
             else acc)
          (sets.NewString []) ids in
  String.concat "," (sets.List collected).

End eks.

(** ** pkg/ctl/utils/enable_logging.go *)

Module utils.

(** The fields of [cmdutils.ResourceCmd] that [doEnableLogging] reads. *)
Record ResourceCmd : Type := {
  ClusterConfig : api.ClusterConfig;
  ProviderConfig : api.ProviderConfig;
  Plan : bool
}.

(** Lines 106-110: the set [shouldEnable]. *)
Definition shouldEnable (cfg : api.ClusterConfig) : gset string :=
  match api.declaredEnableTypes cfg with
  | Some enableTypes => sets.Insert (sets.NewString []) enableTypes
  | None => sets.NewString []
  end.

(** Line 112 *)
Definition shouldDisable (cfg : api.ClusterConfig) : gset string :=
  sets.Difference (sets.NewString api.SupportedCloudWatchClusterLoggingTypes)
                  (shouldEnable cfg).

(** Line 114 *)
Definition updateRequired (currentlyEnabled : gset string) (cfg : api.ClusterConfig) : bool :=
  negb (sets.Equal currentlyEnabled (shouldEnable cfg)).

(** A flag of the command as the pre-run of [enableLoggingCmd] reads it:
    [f.Value.String() == "true"] and [f.Changed]. *)
Record Flag : Type := {
  Value : bool;
  Changed : bool
}.

(** One iteration of the first loop of the pre-run (lines 47-63), on the
    state [EnableTypes], [*enableAll], [disabled]. *)
Definition preRunFlag (allChanged : bool) (flags : string → Flag)
    (st : list string * bool * gset string) (logType : string)
  : list string * bool * gset string :=
  let '(enableTypes, enableAll, disabled) := st in
  let f := flags logType in
  let shouldEnable := Value f in
  let shouldDisable := Changed f && negb shouldEnable in
  let '(enableTypes, enableAll) :=
    if shouldEnable
    then (enableTypes ++ [logType], if negb allChanged then false else enableAll)
    else (enableTypes, enableAll) in
  let disabled :=
    if shouldDisable then sets.Insert disabled [logType] else disabled in
  (enableTypes, enableAll, disabled).

(** The pre-run that [enableLoggingCmd] registers (lines 45-71): from the
    flag [all], the flags of the log types and the list
    [cfg.CloudWatch.ClusterLogging.EnableTypes] so far, the list it
    leaves. [*enableAll] starts as the value of the flag [all]. *)
Definition enableLoggingPreRun (all : Flag) (flags : string → Flag)
    (enableTypes : list string) : list string :=
  let allSupportedLogTypes := api.SupportedCloudWatchClusterLoggingTypes in
  let '(enableTypes, enableAll, disabled) :=
    foldl (preRunFlag (Changed all) flags)
          (enableTypes, Value all, sets.NewString []) allSupportedLogTypes in
  if enableAll
  then foldl (λ enableTypes logType,
                if negb (sets.Has disabled logType)
                then enableTypes ++ [logType]
                else enableTypes)
             enableTypes allSupportedLogTypes
  else enableTypes.

Section WithCollaborators.

Context {W : Type}.
Variable EKS : EKSAPI W.
Variable waiters_Wait : string → awseks.Update → Duration → W → result unit * W.
(** [cmdutils.NewMetadataLoader(rc).Load()], which fills in [rc]. *)
Variable Load : ResourceCmd → W → result ResourceCmd * W.
(** [ctl.IsSupportedRegion()] and [cmdutils.ErrUnsupportedRegion] *)
Variable IsSupportedRegion : eks.ClusterProvider → bool.
Variable ErrUnsupportedRegion : api.ProviderConfig → error.
(** [ctl.CheckAuth()] *)
Variable CheckAuth : eks.ClusterProvider → W → result unit * W.
(** [printer.LogObj(logger.Debug, ..., cfg)] *)
Variable LogObj : api.ClusterConfig → W → result unit * W.

(** Lines 106-145, with [currentlyEnabled] as fetched. *)
Definition reconcileLogging (rc : ResourceCmd) (ctl : eks.ClusterProvider)
    (cfg : api.ClusterConfig) (currentlyEnabled : gset string) : M W unit :=
  let meta := api.Metadata cfg in
  let required := updateRequired currentlyEnabled cfg in
  _ ← call (LogObj cfg);
  _ ← (if required
       then
         let describeTypesToEnable :=
           eks.describeTypes "no types to enable" "enable types: "
                             (sets.List (shouldEnable cfg)) in
         let describeTypesToDisable :=
           eks.describeTypes "no types to disable" "disable types: "
                             (sets.List (shouldDisable cfg)) in
         _ ← log (LogIntendedAction (Plan rc) (api.Name meta) (api.Region meta)
                    describeTypesToEnable describeTypesToDisable);
         if negb (Plan rc)
         then eks.UpdateClusterConfigForLogging EKS waiters_Wait ctl cfg
         else mret tt
       else log (LogSuccessUpToDate (api.Name meta) (api.Region meta)));
  log (LogPlanModeWarning (Plan rc && required)).

(** [doEnableLogging] *)
Definition doEnableLogging (rc0 : ResourceCmd) : M W unit :=
  rc ← call (Load rc0);
  let '(cfg, err) := api.SetClusterConfigDefaults (ClusterConfig rc) in
  let meta := api.Metadata cfg in
  match err with
  | Some e => fail e
  | None =>
      let ctl := eks.New (ProviderConfig rc) in
      if negb (IsSupportedRegion ctl)
      then fail (ErrUnsupportedRegion (ProviderConfig rc))
      else
        _ ← log (LogInfoRegion (api.Region meta));
        _ ← call (CheckAuth ctl);
        current ← eks.GetCurrentClusterConfigForLogging EKS ctl meta;
        reconcileLogging rc ctl cfg current.1
  end.

End WithCollaborators.

End utils.

(** ** Derived observations, and the enumeration in the words of the specification *)

(** The [Types] of the first [LogSetup] of the update input: the enabled
    types as the provider receives them. *)
Definition sentEnabledTypes (input : awseks.UpdateClusterConfigInput) : list (option string) :=
  match awseks.UpdateClusterConfig_Logging input with
  | Some {| awseks.ClusterLogging := Some setup :: _ |} => awseks.LogSetup_Types setup
  | _ => []
  end.

(** The declared list of a configuration, empty when the configuration has
    no logging section. *)
Definition declaredOrNone (cfg : api.ClusterConfig) : list string :=
  default [] (api.declaredEnableTypes cfg).

(** The facility universe as a set. *)
Definition universe : gset string :=
  list_to_set api.SupportedCloudWatchClusterLoggingTypes.

(** ** A recording provider

    A provider in the manner of the mock provider of the tests: the world is
    the list of the calls made so far, and the answers are fixed in
    advance. *)

Inductive Call : Type :=
  | CallDescribeCluster (region : string) (input : awseks.DescribeClusterInput)
  | CallListClusters (region : string) (input : awseks.ListClustersInput)
  | CallUpdateClusterConfig (region : string) (input : awseks.UpdateClusterConfigInput)
  | CallWait (clusterName : string) (update : awseks.Update) (timeout : Duration)
  | CallLogObj (cfg : api.ClusterConfig).

Definition mockEKS
    (describe : result awseks.DescribeClusterOutput)
    (listing : string → option string → result awseks.ListClustersOutput)
    (update : result awseks.UpdateClusterConfigOutput) : EKSAPI (list Call) :=
  {| DescribeCluster region input w := (describe, w ++ [CallDescribeCluster region input]);
     ListClusters region input w :=
       (listing region (awseks.ListClusters_NextToken input),
        w ++ [CallListClusters region input]);
     UpdateClusterConfig region input w :=
       (update, w ++ [CallUpdateClusterConfig region input]) |}.

Definition mockWait (clusterName : string) (update : awseks.Update) (timeout : Duration)
    (w : list Call) : result unit * list Call :=
  (Ok tt, w ++ [CallWait clusterName update timeout]).

Definition mockLogObj (cfg : api.ClusterConfig) (w : list Call) : result unit * list Call :=
  (Ok tt, w ++ [CallLogObj cfg]).

Definition config (declared : list string) : api.ClusterConfig :=
  {| api.Metadata := {| api.Name := "testcluster"; api.Region := "us-west-2" |};
     api.CloudWatch :=
       Some {| api.ClusterLogging := Some {| api.EnableTypes := declared |} |} |}.

Definition testProvider : eks.ClusterProvider :=
  eks.New {| api.Provider_Region := "us-west-2";
             api.Provider_Profile := "default";
             api.Provider_WaitTimeout := 1500000000000%Z |}.

Definition loggingUpdate : awseks.Update :=
  {| awseks.Update_Id := Some "u123"; awseks.Update_Type := Some "LoggingUpdate" |}.

Definition updateOutput : result awseks.UpdateClusterConfigOutput :=
  Ok {| awseks.UpdateClusterConfig_Update := Some loggingUpdate |}.

Definition noClusters (region : string) (token : option string)
  : result awseks.ListClustersOutput :=
  Ok {| awseks.Clusters := []; awseks.NextToken := None |}.

Definition start : State (list Call) := {| world := []; logs := [] |}.

(** ** The enumeration in the words of the specification *)

(** The items of a listing are cluster names; they are reported with the
    region they were listed in. *)
Definition clusterMetas (region : string) (names : list string) : list api.ClusterMeta :=
  (λ name, {| api.Name := name; api.Region := region |}) <$> names.

Section Enumeration.

Context {W : Type}.
Variable EKS : EKSAPI W.

(** The request for a page: the chunk size, and the token unless it is
    the empty one the enumeration starts with. *)
Definition pageRequest (chunkSize : Z) (token : string) : awseks.ListClustersInput :=
  {| awseks.ListClusters_MaxResults := Some chunkSize;
     awseks.ListClusters_NextToken :=
       if decide (token = EmptyString) then None else Some token |}.

(** [enumerates region chunkSize token w pages err w']: from the world
    [w], asking for page after page of [region], each time with the token
    the page before returned, beginning with [token], gets the items
    [pages] in the order of arrival and ends in the world [w']: without
    error at the first page whose next token is absent or empty, or with
    the error [err] of the first request that fails, after which no
    request is made. *)
Inductive enumerates (region : string) (chunkSize : Z)
  : string → W → list (list string) → option error → W → Prop :=
  | enumerates_last token w items next w' :
      ListClusters EKS region (pageRequest chunkSize token) w
      = (Ok {| awseks.Clusters := Some <$> items; awseks.NextToken := next |}, w') →
      next = None ∨ next = Some EmptyString →
      enumerates region chunkSize token w [items] None w'
  | enumerates_more token w items next w1 pages err w' :
      ListClusters EKS region (pageRequest chunkSize token) w
      = (Ok {| awseks.Clusters := Some <$> items; awseks.NextToken := Some next |}, w1) →
      next ≠ EmptyString →
      enumerates region chunkSize next w1 pages err w' →
      enumerates region chunkSize token w (items :: pages) err w'
  | enumerates_error token w e w' :
      ListClusters EKS region (pageRequest chunkSize token) w = (Err e, w') →
      enumerates region chunkSize token w [] (Some e) w'.

(** What the enumeration of one partition came to: the region, the pages
    fetched, and the error that ended it, if any. *)
Definition PartitionOutcome : Type := string * list (list string) * option error.

(** The partitions are enumerated one after the other, each from an empty
    token. *)
Inductive enumeratesRegions (chunkSize : Z)
  : list string → W → list PartitionOutcome → W → Prop :=
  | enumeratesRegions_nil w :
      enumeratesRegions chunkSize [] w [] w
  | enumeratesRegions_cons region rest w pages err w1 outcomes w' :
      enumerates region chunkSize EmptyString w pages err w1 →
      enumeratesRegions chunkSize rest w1 outcomes w' →
      enumeratesRegions chunkSize (region :: rest) w ((region, pages, err) :: outcomes) w'.

End Enumeration.

(** The error as [getClustersRequest] hands it on. *)
Definition listingError (e : error) : error := ErrWrap e "listing control planes".

(** Every page that was fetched, partition after partition. *)
Definition fetchedItems (outcomes : list PartitionOutcome) : list api.ClusterMeta :=
  outcomes ≫= λ '(region, pages, _), clusterMetas region (concat pages).

(** The pages of the partitions that did not fail. *)
Definition succeedingItems (outcomes : list PartitionOutcome) : list api.ClusterMeta :=
  outcomes ≫= λ '(region, pages, err),
    match err with
    | None => clusterMetas region (concat pages)
    | Some _ => []
    end.

(** One log entry for each partition that failed. *)
Definition loggedFailures (outcomes : list PartitionOutcome) : list LogEntry :=
  outcomes ≫= λ '(region, _, err),
    match err with
    | Some e => [LogCriticalListing region (listingError e)]
    | None => []
    end.

(** Two regions: the first returns one page and fails on the second
    request, the second returns a single page. *)
Definition flakyListing (region : string) (token : option string)
  : result awseks.ListClustersOutput :=
  if String.eqb region "eu-north-1"
  then match token with
       | None => Ok {| awseks.Clusters := [Some "a"]; awseks.NextToken := Some "t1" |}
       | Some _ => Err (ErrExternal "throttled")
       end
  else Ok {| awseks.Clusters := [Some "b"]; awseks.NextToken := None |}.

(** One region with three pages. *)
Definition threePages (region : string) (token : option string)
  : result awseks.ListClustersOutput :=
  match token with
  | None => Ok {| awseks.Clusters := [Some "a"; Some "b"]; awseks.NextToken := Some "t1" |}
  | Some t =>
      if String.eqb t "t1"
      then Ok {| awseks.Clusters := [Some "c"]; awseks.NextToken := Some "t2" |}
      else Ok {| awseks.Clusters := [Some "d"]; awseks.NextToken := Some EmptyString |}
  end.

(** A task as [UpdateClusterConfigTasks] builds it, on the recording
    provider. *)
Definition loggingTask (update : result awseks.UpdateClusterConfigOutput)
  : eks.updateClusterConfigTask :=
  {| eks.info := "update CloudWatch logging configurtaion";
     eks.spec := config ["api"];
     eks.task_call :=
       eks.UpdateClusterConfigForLogging (mockEKS Panic noClusters update) mockWait
                                         testProvider |}.

(** The input of the describe call for a cluster. *)
Definition describeInput (cl : api.ClusterMeta) : awseks.DescribeClusterInput :=
  {| awseks.DescribeCluster_Name := Some (api.Name cl) |}.

(** The cluster of the tests: [api] and [audit] enabled, the other three
    types disabled. *)
Definition fakeCluster (status : string) : awseks.Cluster :=
  {| awseks.Cluster_Name := Some "testcluster";
     awseks.Cluster_Status := Some status;
     awseks.Cluster_Logging := Some
       {| awseks.ClusterLogging :=
            [ Some {| awseks.LogSetup_Enabled := api.Enabled;
                      awseks.LogSetup_Types := awseks.StringSlice ["api"; "audit"] |};
              Some {| awseks.LogSetup_Enabled := api.Disabled;
                      awseks.LogSetup_Types :=
                        awseks.StringSlice
                          ["controllerManager"; "authenticator"; "scheduler"] |} ] |} |}.

Definition describeOutput (status : string) : result awseks.DescribeClusterOutput :=
  Ok {| awseks.DescribeCluster_Cluster := Some (fakeCluster status) |}.

(** ** Logging setups of a described cluster *)

(** A setup of the response with its flag and its type names, all
    pointers non-nil. *)
Definition logSetupOf (setup : option bool * list string) : option awseks.LogSetup :=
  Some {| awseks.LogSetup_Enabled := setup.1;
          awseks.LogSetup_Types := awseks.StringSlice setup.2 |}.

(** The names of the setups whose flag satisfies [p]. *)
Definition typesWhere (p : option bool → bool) (setups : list (option bool * list string))
  : gset string :=
  list_to_set (setups ≫= λ setup, if p setup.1 then setup.2 else []).

(** An ACTIVE cluster with the given logging section. *)
Definition activeCluster (name : option string) (logging : option awseks.Logging)
  : awseks.Cluster :=
  {| awseks.Cluster_Name := name;
     awseks.Cluster_Status := Some awseks.ClusterStatusActive;
     awseks.Cluster_Logging := logging |}.

(** An ACTIVE cluster whose second setup has a nil type name. *)
Definition nilTypeCluster : awseks.Cluster :=
  activeCluster (Some "testcluster")
    (Some {| awseks.ClusterLogging :=
               [ Some {| awseks.LogSetup_Enabled := api.Enabled;
                         awseks.LogSetup_Types := [Some "api"] |};
                 Some {| awseks.LogSetup_Enabled := api.Disabled;
                         awseks.LogSetup_Types := [Some "audit"; None] |} ] |}).

(** The [Types] of the second [LogSetup] of the update input: the disabled
    types as the provider receives them. *)
Definition sentDisabledTypes (input : awseks.UpdateClusterConfigInput) : list (option string) :=
  match awseks.UpdateClusterConfig_Logging input with
  | Some {| awseks.ClusterLogging := _ :: Some setup :: _ |} => awseks.LogSetup_Types setup
  | _ => []
  end.

(** Collaborators of [doEnableLogging] that always succeed and leave the
    world as it is. *)
Definition mockLoad (rc : utils.ResourceCmd) (w : list Call)
  : result utils.ResourceCmd * list Call := (Ok rc, w).

Definition mockCheckAuth (c : eks.ClusterProvider) (w : list Call)
  : result unit * list Call := (Ok tt, w).

Definition anyRegion (c : eks.ClusterProvider) : bool := true.

Definition unsupportedRegion (p : api.ProviderConfig) : error :=
  ErrExternal "unsupported region".

Definition command (declared : list string) (plan : bool) : utils.ResourceCmd :=
  {| utils.ClusterConfig := config declared;
     utils.ProviderConfig := eks.Provider testProvider;
     utils.Plan := plan |}.

(** ** Flags of [enable-logging] *)

(** The flag of a log type was given as true. *)
Definition switchedOn (flags : string → utils.Flag) (logType : string) : Prop :=
  utils.Value (flags logType) = true.

(** The flag of a log type was given, as false. *)
Definition switchedOff (flags : string → utils.Flag) (logType : string) : Prop :=
  utils.Changed (flags logType) = true ∧ utils.Value (flags logType) = false.

#[global] Instance switchedOn_dec flags logType : Decision (switchedOn flags logType).
Proof. unfold switchedOn. apply _. Defined.

#[global] Instance switchedOff_dec flags logType : Decision (switchedOff flags logType).
Proof. unfold switchedOff. apply _. Defined.

(** A flag that was not given, with its default value. *)
Definition notGiven (default : bool) : utils.Flag :=
  {| utils.Value := default; utils.Changed := false |}.

(** A flag given with a value. *)
Definition given (value : bool) : utils.Flag :=
  {| utils.Value := value; utils.Changed := true |}.

(** Flags of the log types: [--audit] and [--api=false], the others not
    given. *)
Definition someFlags (logType : string) : utils.Flag :=
  if String.eqb logType "audit" then given true
  else if String.eqb logType "api" then given false
  else notGiven false.

(** Only [--api=false] given. *)
Definition onlyOffFlags (logType : string) : utils.Flag :=
  if String.eqb logType "api" then given false else notGiven false.

(** ** Node groups *)

(** The addon policies of a node group, one projection for each. *)
Definition addonPolicies : list (api.NodeGroupIAMAddonPolicies → option bool) :=
  [api.Addon_ImageBuilder; api.Addon_AutoScaler; api.Addon_ExternalDNS;
   api.Addon_CertManager; api.Addon_ALBIngress; api.Addon_XRay;
   api.Addon_CloudWatch; api.Addon_EBS; api.Addon_FSX; api.Addon_EFS].

(** The SSH section a node group starts from: its own, or the one that
    [SetNodeGroupDefaults] creates when there is none. *)
Definition sshBefore (ng : api.NodeGroup) : api.NodeGroupSSH :=
  match api.NG_SSH ng with
  | Some ssh => ssh
  | None => {| api.SSH_Allow := api.Disabled; api.SSH_PublicKeyPath := None;
               api.SSH_PublicKey := None; api.SSH_PublicKeyName := None |}
  end.

(** The arguments of [countEnabledFields] in [SetNodeGroupDefaults]. *)
Definition sshKeyFields (ssh : api.NodeGroupSSH) : list (option string) :=
  [api.SSH_PublicKeyName ssh; api.SSH_PublicKeyPath ssh; api.SSH_PublicKey ssh].

(** A counting function for the examples: the fields that are set and not
    empty. *)
Definition countSet (fields : list (option string)) : nat :=
  length (filter (λ f, api.IsSetAndNonEmptyString f = true) fields).

Definition neverMixed (ng : api.NodeGroup) : bool := false.

(** A node group with nothing set. *)
Definition emptyNodeGroup : api.NodeGroup :=
  {| api.NG_InstanceType := EmptyString; api.NG_AMIFamily := EmptyString;
     api.NG_AMI := EmptyString; api.NG_SecurityGroups := None;
     api.NG_SSH := None; api.NG_VolumeType := None; api.NG_IAM := None |}.

(** A node group with a public key and SSH switched off explicitly. *)
Definition keyedNodeGroup : api.NodeGroup :=
  {| api.NG_InstanceType := "m5.large"; api.NG_AMIFamily := EmptyString;
     api.NG_AMI := EmptyString; api.NG_SecurityGroups := None;
     api.NG_SSH := Some {| api.SSH_Allow := Some false;
                           api.SSH_PublicKeyPath := None;
                           api.SSH_PublicKey := None;
                           api.SSH_PublicKeyName := Some "admin" |};
     api.NG_VolumeType := Some "io1"; api.NG_IAM := None |}.

(** * Properties *)

(** ** Facts about [sets.String] *)

Section SetsFacts.

Implicit Types s : gset string.

Lemma sets_Insert_union s items :
  sets.Insert s items = s ∪ list_to_set items.
Proof.
  unfold sets.Insert. revert s.
  induction items as [|item items IH]; intros s; simpl.
  - set_solver.
  - rewrite IH. set_solver.
Qed.

Lemma sets_NewString_list_to_set items :
  sets.NewString items = list_to_set items.
Proof. unfold sets.NewString. rewrite sets_Insert_union. set_solver. Qed.

Lemma sets_elem_of_NewString x items :
  x ∈ sets.NewString items ↔ x ∈ items.
Proof. rewrite sets_NewString_list_to_set. set_solver. Qed.

Lemma sets_Has_true s x : sets.Has s x = true ↔ x ∈ s.
Proof. unfold sets.Has. apply bool_decide_eq_true. Qed.

Lemma sets_Has_false s x : sets.Has s x = false ↔ x ∉ s.
Proof. unfold sets.Has. apply bool_decide_eq_false. Qed.

Lemma sets_Difference_difference s s2 :
  sets.Difference s s2 = s ∖ s2.
Proof.
  unfold sets.Difference. apply set_eq. intros x.
  rewrite elem_of_difference, <- (elem_of_elements s x).
  induction (elements s) as [|key keys IH]; simpl.
  - set_solver.
  - destruct (sets.Has s2 key) eqn:Hhas.
    + apply sets_Has_true in Hhas. rewrite IH. set_solver.
    + apply sets_Has_false in Hhas. rewrite elem_of_union, IH. set_solver.
Qed.

Lemma sets_IsSuperset_subseteq s1 s2 :
  sets.IsSuperset s1 s2 = true ↔ s2 ⊆ s1.
Proof.
  unfold sets.IsSuperset. rewrite forallb_forall. split.
  - intros Hall x Hx. apply sets_Has_true, Hall, list_elem_of_In.
    by apply elem_of_elements.
  - intros Hsub x Hx. apply sets_Has_true, Hsub.
    by apply elem_of_elements, list_elem_of_In.
Qed.

(** [Equal] decides equality of the two sets. *)
Lemma sets_Equal_eq s1 s2 : sets.Equal s1 s2 = true ↔ s1 = s2.
Proof.
  unfold sets.Equal, sets.Len.
  rewrite andb_true_iff, Nat.eqb_eq, sets_IsSuperset_subseteq. split.
  - intros [Hsize Hsub]. symmetry.
    apply set_subseteq_size_eq; [done | lia].
  - intros ->. split; done.
Qed.

Lemma sets_List_Permutation s : sets.List s ≡ₚ elements s.
Proof. unfold sets.List. apply merge_sort_Permutation. Qed.

Lemma sets_elem_of_List s x : x ∈ sets.List s ↔ x ∈ s.
Proof. rewrite sets_List_Permutation. apply elem_of_elements. Qed.

Lemma sets_List_NoDup s : NoDup (sets.List s).
Proof. rewrite sets_List_Permutation. apply NoDup_elements. Qed.

Lemma sets_List_Sorted s : Sorted String.le (sets.List s).
Proof. unfold sets.List. apply (Sorted_merge_sort String.le). Qed.

(** The list of a set is the only sorted arrangement of its keys. *)
Lemma sets_List_unique s l :
  Sorted String.le l → l ≡ₚ elements s → sets.List s = l.
Proof.
  intros Hsorted Hperm.
  apply (Sorted_unique String.le); [apply sets_List_Sorted | done |].
  by rewrite sets_List_Permutation.
Qed.

End SetsFacts.

(** ** [SetClusterConfigDefaults] *)

Section Defaults.

Lemma isWildcard_true x : api.isWildcard x = true ↔ x = "all" ∨ x = "*".
Proof.
  unfold api.isWildcard. rewrite orb_true_iff, !String.eqb_eq. done.
Qed.

Lemma isUnknown_false x :
  api.isUnknown x = false ↔ x ∈ api.SupportedCloudWatchClusterLoggingTypes.
Proof.
  unfold api.isUnknown, api.SupportedCloudWatchClusterLoggingTypes. simpl.
  rewrite !elem_of_cons, elem_of_nil.
  repeat match goal with
         | |- context [String.eqb x ?k] =>
             destruct (String.eqb_spec x k) as [->|?]
         end.
  all: split; [first [discriminate | intros _; tauto] | first [done | intuition congruence]].
Qed.

Lemma isUnknown_true x :
  api.isUnknown x = true ↔ x ∉ api.SupportedCloudWatchClusterLoggingTypes.
Proof.
  rewrite <- isUnknown_false. destruct (api.isUnknown x); split; congruence.
Qed.

Lemma expand_fold_supported l :
  foldl (λ enableTypes logType,
           if api.isWildcard logType
           then api.SupportedCloudWatchClusterLoggingTypes
           else enableTypes)
        api.SupportedCloudWatchClusterLoggingTypes l
  = api.SupportedCloudWatchClusterLoggingTypes.
Proof.
  induction l as [|x l IH]; simpl; [done|].
  by destruct (api.isWildcard x).
Qed.

Lemma expand_fold_wildcard l acc :
  (∃ x, x ∈ l ∧ api.isWildcard x = true) →
  foldl (λ enableTypes logType,
           if api.isWildcard logType
           then api.SupportedCloudWatchClusterLoggingTypes
           else enableTypes)
        acc l
  = api.SupportedCloudWatchClusterLoggingTypes.
Proof.
  revert acc. induction l as [|y l IH]; intros acc [x [Hin Hw]].
  - by apply elem_of_nil in Hin.
  - simpl. destruct (api.isWildcard y) eqn:Hy.
    + apply expand_fold_supported.
    + apply IH. exists x. split; [|done].
      apply elem_of_cons in Hin as [->|Hin]; [congruence | done].
Qed.

Lemma expand_fold_plain l acc :
  (∀ x, x ∈ l → api.isWildcard x = false) →
  foldl (λ enableTypes logType,
           if api.isWildcard logType
           then api.SupportedCloudWatchClusterLoggingTypes
           else enableTypes)
        acc l
  = acc.
Proof.
  revert acc. induction l as [|y l IH]; intros acc Hall; simpl; [done|].
  rewrite (Hall y) by set_solver. apply IH. intros x Hx. apply Hall. set_solver.
Qed.

(** A wildcard anywhere makes the expansion the universe. *)
Lemma expandWildcards_wildcard declared :
  (∃ x, x ∈ declared ∧ (x = "all" ∨ x = "*")) →
  api.expandWildcards declared = api.SupportedCloudWatchClusterLoggingTypes.
Proof.
  intros [x [Hin Hw]]. apply expand_fold_wildcard.
  exists x. by rewrite isWildcard_true.
Qed.

(** Without a wildcard the expansion is the declared list. *)
Lemma expandWildcards_plain declared :
  (∀ x, x ∈ declared → x ≠ "all" ∧ x ≠ "*") →
  api.expandWildcards declared = declared.
Proof.
  intros Hall. apply expand_fold_plain. intros x Hx.
  destruct (api.isWildcard x) eqn:Hw; [|done].
  apply isWildcard_true in Hw. destruct (Hall x Hx). tauto.
Qed.

Lemma validateLogTypes_known l :
  Forall (λ x, x ∈ api.SupportedCloudWatchClusterLoggingTypes) l →
  api.validateLogTypes l = None.
Proof.
  induction 1 as [|x l Hx _ IH]; simpl; [done|].
  apply isUnknown_false in Hx. by rewrite Hx.
Qed.

Lemma validateLogTypes_first_unknown pre x post :
  Forall (λ y, y ∈ api.SupportedCloudWatchClusterLoggingTypes) pre →
  x ∉ api.SupportedCloudWatchClusterLoggingTypes →
  api.validateLogTypes (pre ++ x :: post) = Some (ErrLogTypeUnknown x).
Proof.
  intros Hpre Hx. induction Hpre as [|y pre Hy _ IH]; simpl.
  - apply isUnknown_true in Hx. by rewrite Hx.
  - apply isUnknown_false in Hy. by rewrite Hy.
Qed.

Lemma setEnableTypes_same cfg declared :
  api.declaredEnableTypes cfg = Some declared →
  api.setEnableTypes cfg declared = cfg.
Proof.
  unfold api.declaredEnableTypes, api.setEnableTypes.
  destruct cfg as [meta [[[[types]|]]|]]; simpl; congruence.
Qed.

Lemma declaredEnableTypes_set cfg l :
  api.declaredEnableTypes (api.setEnableTypes cfg l) = Some l.
Proof. done. Qed.

End Defaults.

(** ** Wildcard expansion and validation of the declared facilities *)

(** C1: a declared list with ["all"] or ["*"] at any position is replaced
    by the whole universe, in its canonical order, whatever else it holds;
    a declared list without wildcard whose names are all valid is left as
    it is, and so is the configuration. *)
Theorem SetClusterConfigDefaults_expansion (cfg : api.ClusterConfig) (declared : list string) :
  api.declaredEnableTypes cfg = Some declared →
  (("all" ∈ declared ∨ "*" ∈ declared) →
     api.declaredEnableTypes (api.SetClusterConfigDefaults cfg).1
     = Some ["api"; "audit"; "authenticator"; "controllerManager"; "scheduler"])
  ∧ ("all" ∉ declared → "*" ∉ declared →
     Forall (λ x, x ∈ api.SupportedCloudWatchClusterLoggingTypes) declared →
     api.declaredEnableTypes (api.SetClusterConfigDefaults cfg).1 = Some declared
     ∧ (api.SetClusterConfigDefaults cfg).1 = cfg).
Proof.
  intros Hdecl. unfold api.SetClusterConfigDefaults. rewrite Hdecl. simpl. split.
  - intros Hw. rewrite expandWildcards_wildcard; [done|].
    destruct Hw; [exists "all" | exists "*"]; auto.
  - intros Hall Hstar _. rewrite expandWildcards_plain.
    + split; [done | by apply setEnableTypes_same].
    + intros x Hx. split; intros ->; tauto.
Qed.

Lemma SetClusterConfigDefaults_expansion_witness :
  api.declaredEnableTypes
    (api.SetClusterConfigDefaults (config ["scheduler"; "*"; "bogus"; "api"])).1
  = Some ["api"; "audit"; "authenticator"; "controllerManager"; "scheduler"]
  ∧ (api.SetClusterConfigDefaults (config ["scheduler"; "api"])).1
    = config ["scheduler"; "api"].
Proof.
  split.
  - apply (SetClusterConfigDefaults_expansion
             (config ["scheduler"; "*"; "bogus"; "api"]) _ eq_refl).
    right. compute_done.
  - apply (SetClusterConfigDefaults_expansion (config ["scheduler"; "api"]) _ eq_refl).
    + compute_done.
    + compute_done.
    + compute_done.
Defined.

(** C2: the entries of the list as expanded are checked against the
    universe in order; the first one that is not a member makes the call
    return the error that names it, also when the list had no wildcard (the
    expanded list is then the declared one); when every entry is a member
    no error is returned. *)
Theorem SetClusterConfigDefaults_validation (cfg : api.ClusterConfig) (declared : list string) :
  api.declaredEnableTypes cfg = Some declared →
  (∀ pre x post,
     api.expandWildcards declared = (pre ++ x :: post) →
     Forall (λ y, y ∈ api.SupportedCloudWatchClusterLoggingTypes) pre →
     x ∉ api.SupportedCloudWatchClusterLoggingTypes →
     (api.SetClusterConfigDefaults cfg).2 = Some (ErrLogTypeUnknown x))
  ∧ (Forall (λ y, y ∈ api.SupportedCloudWatchClusterLoggingTypes)
            (api.expandWildcards declared) →
     (api.SetClusterConfigDefaults cfg).2 = None)
  ∧ ("all" ∉ declared → "*" ∉ declared →
     api.expandWildcards declared = declared).
Proof.
  intros Hdecl. unfold api.SetClusterConfigDefaults. rewrite Hdecl. simpl.
  split; [|split].
  - intros pre x post -> Hpre Hx. by apply validateLogTypes_first_unknown.
  - apply validateLogTypes_known.
  - intros Hall Hstar. apply expandWildcards_plain.
    intros x Hx. split; intros ->; tauto.
Qed.

Lemma SetClusterConfigDefaults_validation_witness :
  (api.SetClusterConfigDefaults (config ["audit"; "anything"; "other"])).2
  = Some (ErrLogTypeUnknown "anything")
  ∧ (api.SetClusterConfigDefaults (config ["audit"; "api"])).2 = None.
Proof.
  split.
  - apply (proj1 (SetClusterConfigDefaults_validation
                    (config ["audit"; "anything"; "other"]) _ eq_refl)
                 ["audit"] "anything" ["other"]).
    + reflexivity.
    + compute_done.
    + compute_done.
  - apply (SetClusterConfigDefaults_validation (config ["audit"; "api"]) _ eq_refl).
    compute_done.
Defined.

(** ** The enabled and the disabled sets *)

Section LoggingSets.

Lemma enabledTypes_declared cfg :
  eks.enabledTypes cfg = list_to_set (declaredOrNone cfg).
Proof.
  unfold eks.enabledTypes, declaredOrNone.
  destruct (api.declaredEnableTypes cfg); simpl.
  - rewrite sets_Insert_union, sets_NewString_list_to_set. set_solver.
  - by rewrite sets_NewString_list_to_set.
Qed.

Lemma shouldEnable_enabledTypes cfg : utils.shouldEnable cfg = eks.enabledTypes cfg.
Proof. done. Qed.

Lemma disabled_fold (enabled : gset string) (types : list string) (acc : gset string) :
  foldl (λ disabled logType,
           if negb (sets.Has enabled logType)
           then sets.Insert disabled [logType]
           else disabled) acc types
  = acc ∪ (list_to_set types ∖ enabled).
Proof.
  revert acc. induction types as [|t types IH]; intros acc; simpl.
  - set_solver.
  - rewrite IH. destruct (sets.Has enabled t) eqn:Hhas; simpl.
    + apply sets_Has_true in Hhas. set_solver.
    + apply sets_Has_false in Hhas. unfold sets.Insert. simpl. set_solver.
Qed.

Lemma disabledTypes_difference cfg :
  eks.disabledTypes cfg = universe ∖ eks.enabledTypes cfg.
Proof.
  unfold eks.disabledTypes. rewrite disabled_fold, sets_NewString_list_to_set.
  unfold universe. set_solver.
Qed.

Lemma shouldDisable_difference cfg :
  utils.shouldDisable cfg = universe ∖ utils.shouldEnable cfg.
Proof.
  unfold utils.shouldDisable.
  by rewrite sets_Difference_difference, sets_NewString_list_to_set.
Qed.

End LoggingSets.

(** C4: for an enabled set within the universe, the disabled set is the
    universe without the enabled set, in [UpdateClusterConfigForLogging] and
    in [doEnableLogging] alike; the two sets together are the universe and
    they share no element. *)
Theorem disabled_is_complement (cfg : api.ClusterConfig) :
  eks.enabledTypes cfg ⊆ universe →
  eks.disabledTypes cfg = universe ∖ eks.enabledTypes cfg
  ∧ eks.enabledTypes cfg ∪ eks.disabledTypes cfg = universe
  ∧ eks.enabledTypes cfg ∩ eks.disabledTypes cfg = ∅
  ∧ utils.shouldDisable cfg = universe ∖ utils.shouldEnable cfg
  ∧ utils.shouldEnable cfg ∪ utils.shouldDisable cfg = universe
  ∧ utils.shouldEnable cfg ∩ utils.shouldDisable cfg = ∅.
Proof.
  intros Hsub.
  rewrite shouldDisable_difference, disabledTypes_difference.
  change (utils.shouldEnable cfg) with (eks.enabledTypes cfg).
  assert (eks.enabledTypes cfg ∪ universe ∖ eks.enabledTypes cfg = universe) as Hunion.
  { apply set_eq. intros x. rewrite elem_of_union, elem_of_difference.
    destruct (decide (x ∈ eks.enabledTypes cfg)); set_solver. }
  repeat split; try done; set_solver.
Qed.

Lemma disabled_is_complement_witness :
  eks.disabledTypes (config ["authenticator"; "controllerManager"])
  = universe ∖ eks.enabledTypes (config ["authenticator"; "controllerManager"])
  ∧ sets.List (eks.disabledTypes (config ["authenticator"; "controllerManager"]))
    = ["api"; "audit"; "scheduler"].
Proof.
  split.
  - apply (disabled_is_complement (config ["authenticator"; "controllerManager"])).
    compute_done.
  - reflexivity.
Defined.

(** ** Whether an update is required *)

(** C3: [updateRequired] is false exactly when the observed enabled set
    and the declared list have the same members, whatever the order of the
    list (two empty sets included); and in that case [doEnableLogging] logs
    that the configuration is up to date and makes no update call, while a
    required update outside plan mode is applied. *)
Theorem updateRequired_iff_sets_differ (currentlyEnabled : gset string) (cfg : api.ClusterConfig) :
  (utils.updateRequired currentlyEnabled cfg = false
   ↔ currentlyEnabled = list_to_set (declaredOrNone cfg))
  ∧ (currentlyEnabled = list_to_set (declaredOrNone cfg)
     ↔ ∀ x, x ∈ currentlyEnabled ↔ x ∈ declaredOrNone cfg)
  ∧ (∀ (W : Type) (EKS : EKSAPI W) waiters_Wait LogObj rc ctl (s : State W),
       utils.updateRequired currentlyEnabled cfg = false →
       utils.reconcileLogging EKS waiters_Wait LogObj rc ctl cfg currentlyEnabled s
       = (_ ← call (LogObj cfg);
          _ ← log (LogSuccessUpToDate (api.Name (api.Metadata cfg))
                                      (api.Region (api.Metadata cfg)));
          log (LogPlanModeWarning false)) s)
  ∧ (∀ (W : Type) (EKS : EKSAPI W) waiters_Wait LogObj rc ctl (s : State W),
       utils.updateRequired currentlyEnabled cfg = true →
       utils.Plan rc = false →
       utils.reconcileLogging EKS waiters_Wait LogObj rc ctl cfg currentlyEnabled s
       = (_ ← call (LogObj cfg);
          _ ← log (LogIntendedAction false
                     (api.Name (api.Metadata cfg)) (api.Region (api.Metadata cfg))
                     (eks.describeTypes "no types to enable" "enable types: "
                        (sets.List (utils.shouldEnable cfg)))
                     (eks.describeTypes "no types to disable" "disable types: "
                        (sets.List (utils.shouldDisable cfg))));
          _ ← eks.UpdateClusterConfigForLogging EKS waiters_Wait ctl cfg;
          log (LogPlanModeWarning false)) s).
Proof.
  split; [|split; [|split]].
  - unfold utils.updateRequired. rewrite negb_false_iff, sets_Equal_eq.
    change (utils.shouldEnable cfg) with (eks.enabledTypes cfg).
    by rewrite enabledTypes_declared.
  - split.
    + intros -> x. apply elem_of_list_to_set.
    + intros Hmem. apply set_eq. intros x. rewrite Hmem.
      symmetry. apply elem_of_list_to_set.
  - intros W EKS wait LogObj rc ctl s Hreq.
    unfold utils.reconcileLogging. rewrite Hreq.
    by rewrite andb_false_r.
  - intros W EKS wait LogObj rc ctl s Hreq Hplan.
    unfold utils.reconcileLogging. rewrite Hreq, Hplan. done.
Qed.

Lemma updateRequired_iff_sets_differ_witness :
  utils.updateRequired (sets.NewString ["audit"; "api"]) (config ["api"; "audit"; "api"]) = false
  ∧ utils.updateRequired ∅ (config []) = false
  ∧ (utils.reconcileLogging (mockEKS Panic noClusters updateOutput) mockWait mockLogObj
       {| utils.ClusterConfig := config ["api"; "audit"];
          utils.ProviderConfig := eks.Provider testProvider;
          utils.Plan := false |}
       testProvider (config ["api"; "audit"]) (sets.NewString ["audit"; "api"]) start).2
    = {| world := [CallLogObj (config ["api"; "audit"])];
         logs := [LogSuccessUpToDate "testcluster" "us-west-2"; LogPlanModeWarning false] |}.
Proof.
  split; [|split].
  - apply (updateRequired_iff_sets_differ
             (sets.NewString ["audit"; "api"]) (config ["api"; "audit"; "api"])).
    compute_done.
  - apply (updateRequired_iff_sets_differ ∅ (config [])).
    compute_done.
  - rewrite (proj1 (proj2 (proj2 (updateRequired_iff_sets_differ
                             (sets.NewString ["audit"; "api"]) (config ["api"; "audit"]))))).
    + reflexivity.
    + reflexivity.
Defined.

(** ** The order of the enabled types sent to the provider *)

(** C5 as stated fails: the declared list [scheduler, api] is valid and is
    left as it is by [SetClusterConfigDefaults], but the update call
    receives [api, scheduler]. *)
Lemma sent_order_counterexample :
  api.SetClusterConfigDefaults (config ["scheduler"; "api"])
  = (config ["scheduler"; "api"], None)
  ∧ world (eks.UpdateClusterConfigForLogging
             (mockEKS Panic noClusters updateOutput) mockWait testProvider
             (config ["scheduler"; "api"]) start).2
    = [CallUpdateClusterConfig "us-west-2"
         (eks.loggingUpdateInput (config ["scheduler"; "api"]));
       CallWait "testcluster" loggingUpdate 1500000000000%Z]
  ∧ sentEnabledTypes (eks.loggingUpdateInput (config ["scheduler"; "api"]))
    = [Some "api"; Some "scheduler"]
  ∧ sentEnabledTypes (eks.loggingUpdateInput (config ["scheduler"; "api"]))
    ≠ awseks.StringSlice ["scheduler"; "api"].
Proof.
  split; [reflexivity|]. split; [vm_compute; reflexivity|].
  split; [vm_compute; reflexivity|].
  intros Heq. vm_compute in Heq. discriminate Heq.
Qed.

(** C5, amended: the enabled types that [UpdateClusterConfigForLogging]
    sends are the members of the declared list in ascending order of Go's
    string comparison, each once; they are the declared list itself when
    that list is ascending and without repetition, as the universe is. *)
Theorem sent_enabled_types_sorted (cfg : api.ClusterConfig) :
  sentEnabledTypes (eks.loggingUpdateInput cfg)
  = awseks.StringSlice (sets.List (eks.enabledTypes cfg))
  ∧ Sorted String.le (sets.List (eks.enabledTypes cfg))
  ∧ NoDup (sets.List (eks.enabledTypes cfg))
  ∧ (∀ x, x ∈ sets.List (eks.enabledTypes cfg) ↔ x ∈ declaredOrNone cfg)
  ∧ (Sorted String.le (declaredOrNone cfg) → NoDup (declaredOrNone cfg) →
     sentEnabledTypes (eks.loggingUpdateInput cfg)
     = awseks.StringSlice (declaredOrNone cfg)).
Proof.
  split; [done|]. split; [apply sets_List_Sorted|]. split; [apply sets_List_NoDup|].
  split.
  - intros x. rewrite sets_elem_of_List, enabledTypes_declared.
    apply elem_of_list_to_set.
  - intros Hsorted Hnodup.
    change (sentEnabledTypes (eks.loggingUpdateInput cfg))
      with (awseks.StringSlice (sets.List (eks.enabledTypes cfg))).
    f_equal.
    apply sets_List_unique; [done|].
    rewrite enabledTypes_declared. symmetry. by apply elements_list_to_set.
Qed.

Lemma sent_enabled_types_sorted_witness :
  sentEnabledTypes
    (eks.loggingUpdateInput (config api.SupportedCloudWatchClusterLoggingTypes))
  = awseks.StringSlice api.SupportedCloudWatchClusterLoggingTypes.
Proof.
  apply (sent_enabled_types_sorted (config api.SupportedCloudWatchClusterLoggingTypes)).
  - compute_done.
  - compute_done.
Defined.

(** ** Listing clusters *)

Section Listing.

Context {W : Type}.
Variable EKS : EKSAPI W.

Lemma getClustersRequest_run c chunkSize token (s : State W) :
  eks.getClustersRequest EKS c chunkSize token s
  = match ListClusters EKS (eks.region c) (pageRequest chunkSize token) (world s) with
    | (Ok output, w) =>
        (Ok (awseks.Clusters output, awseks.NextToken output),
         {| world := w; logs := logs s |})
    | (Err e, w) => (Err (listingError e), {| world := w; logs := logs s |})
    | (Panic, w) => (Panic, {| world := w; logs := logs s |})
    end.
Proof.
  unfold eks.getClustersRequest, pageRequest, mbind, M_bind, wrapping, call.
  replace (if negb (String.eqb token EmptyString) then Some token else None)
    with (if decide (token = EmptyString) then None else Some token).
  - by destruct (ListClusters EKS _ _ _) as [[output|e|] w].
  - destruct (String.eqb_spec token EmptyString); by case_decide.
Qed.

Lemma appendClusters_names c names allClusters :
  eks.appendClusters c (Some <$> names) allClusters
  = (Ok tt, allClusters ++ clusterMetas (eks.region c) names).
Proof.
  revert allClusters. induction names as [|name names IH]; intros allClusters; simpl.
  - by rewrite app_nil_r.
  - rewrite IH. by rewrite <- app_assoc.
Qed.

Lemma clusterMetas_app region l1 l2 :
  clusterMetas region (l1 ++ l2) = clusterMetas region l1 ++ clusterMetas region l2.
Proof. apply fmap_app. Qed.

(** The page loop follows the enumeration, given fuel for its requests. *)
Lemma listPages_enumerates c chunkSize token w pages err w' :
  enumerates EKS (eks.region c) chunkSize token w pages err w' →
  ∀ fuel allClusters entries,
    length pages < fuel →
    eks.listPages EKS fuel c chunkSize token allClusters {| world := w; logs := entries |}
    = Some (match err with None => Ok tt | Some e => Err (listingError e) end,
            allClusters ++ clusterMetas (eks.region c) (concat pages),
            {| world := w'; logs := entries |}).
Proof.
  induction 1 as [token w items next w' Hcall Hnext
                 |token w items next w1 pages err w' Hcall Hnext _ IH
                 |token w e w' Hcall];
    intros fuel allClusters entries Hfuel;
    (destruct fuel as [|fuel]; [simpl in Hfuel; lia|]);
    simpl; rewrite getClustersRequest_run; simpl; rewrite Hcall; simpl.
  - rewrite appendClusters_names, app_nil_r.
    by destruct Hnext as [->| ->].
  - rewrite appendClusters_names.
    assert (String.eqb next EmptyString = false) as ->
      by (by apply String.eqb_neq).
    simpl. rewrite IH by (simpl in Hfuel; lia).
    by rewrite clusterMetas_app, app_assoc.
  - by rewrite app_nil_r.
Qed.

Lemma listRegions_enumerates c chunkSize regions w outcomes w' :
  enumeratesRegions EKS chunkSize regions w outcomes w' →
  ∀ fuel allClusters entries,
    Forall (λ outcome : PartitionOutcome, length outcome.1.2 < fuel) outcomes →
    eks.listRegions EKS fuel c chunkSize regions allClusters
                    {| world := w; logs := entries |}
    = Some (Ok tt, allClusters ++ fetchedItems outcomes,
            {| world := w'; logs := entries ++ loggedFailures outcomes |}).
Proof.
  induction 1 as [w|region rest w pages err w1 outcomes w' Hpages _ IH];
    intros fuel allClusters entries Hfuel; simpl.
  - by rewrite !app_nil_r.
  - apply Forall_cons in Hfuel as [Hfuel1 Hfuel].
    rewrite (listPages_enumerates _ chunkSize EmptyString w pages err w1)
      by done.
    destruct err as [e|]; simpl; rewrite IH by done;
      by rewrite <- !app_assoc.
Qed.

Lemma fetched_is_succeeding outcomes :
  (∀ region pages e, (region, pages, Some e) ∈ outcomes → concat pages = []) →
  fetchedItems outcomes = succeedingItems outcomes.
Proof.
  induction outcomes as [|[[region pages] err] outcomes IH]; intros Hfail; [done|].
  unfold fetchedItems, succeedingItems. simpl. f_equal.
  - destruct err as [e|]; [|done].
    by rewrite (Hfail region pages e) by apply list_elem_of_here.
  - apply IH. intros region' pages' e Hin.
    apply (Hfail region' pages' e). by apply list_elem_of_further.
Qed.

End Listing.

(** C7: within one partition, [doListClusters] asks for the first page
    with an empty token, then for each next page with the token the page
    before returned, appends the items of the pages in the order of
    arrival, and stops at the first page whose next token is absent or
    empty, returning no error; an error of a request ends the loop there,
    with no further request, and is returned to the caller. The loop ends
    within one iteration for each request. *)
Theorem doListClusters_paginates {W : Type} (EKS : EKSAPI W) (regions : list string)
    (c : eks.ClusterProvider) (chunkSize : Z) (pages : list (list string))
    (err : option error) (w' : W) (fuel : nat)
    (allClusters : list api.ClusterMeta) (s : State W) :
  enumerates EKS (eks.region c) chunkSize EmptyString (world s) pages err w' →
  length pages < fuel →
  eks.doListClusters EKS regions fuel c chunkSize allClusters false s
  = Some (match err with None => Ok tt | Some e => Err (listingError e) end,
          allClusters ++ clusterMetas (eks.region c) (concat pages),
          {| world := w'; logs := logs s |}).
Proof.
  intros Hpages Hfuel. unfold eks.doListClusters. destruct s as [w entries].
  by apply listPages_enumerates.
Qed.

Lemma doListClusters_paginates_witness :
  eks.doListClusters (mockEKS Panic threePages updateOutput) [] 4 testProvider 100 [] false start
  = Some (Ok tt,
          clusterMetas "us-west-2" ["a"; "b"; "c"; "d"],
          {| world :=
               [CallListClusters "us-west-2" (pageRequest 100 EmptyString);
                CallListClusters "us-west-2" (pageRequest 100 "t1");
                CallListClusters "us-west-2" (pageRequest 100 "t2")];
             logs := [] |})
  ∧ eks.doListClusters (mockEKS Panic flakyListing updateOutput) [] 2
      (eks.New {| api.Provider_Region := "eu-north-1";
                  api.Provider_Profile := "default";
                  api.Provider_WaitTimeout := 0%Z |}) 100 [] false start
    = Some (Err (listingError (ErrExternal "throttled")),
            clusterMetas "eu-north-1" ["a"],
            {| world :=
                 [CallListClusters "eu-north-1" (pageRequest 100 EmptyString);
                  CallListClusters "eu-north-1" (pageRequest 100 "t1")];
               logs := [] |}).
Proof.
  split.
  - apply (doListClusters_paginates (mockEKS Panic threePages updateOutput) []
             testProvider 100 [["a"; "b"]; ["c"]; ["d"]] None); [|simpl; lia].
    apply (enumerates_more _ _ _ EmptyString [] ["a"; "b"] "t1"
             [CallListClusters "us-west-2" (pageRequest 100 EmptyString)]);
      [reflexivity | discriminate |].
    apply (enumerates_more _ _ _ "t1" _ ["c"] "t2"
             [CallListClusters "us-west-2" (pageRequest 100 EmptyString);
              CallListClusters "us-west-2" (pageRequest 100 "t1")]);
      [reflexivity | discriminate |].
    apply (enumerates_last _ _ _ "t2" _ ["d"] (Some EmptyString));
      [reflexivity | by right].
  - apply (doListClusters_paginates (mockEKS Panic flakyListing updateOutput) []
             (eks.New {| api.Provider_Region := "eu-north-1";
                         api.Provider_Profile := "default";
                         api.Provider_WaitTimeout := 0%Z |})
             100 [["a"]] (Some (ErrExternal "throttled"))
             [CallListClusters "eu-north-1" (pageRequest 100 EmptyString);
              CallListClusters "eu-north-1" (pageRequest 100 "t1")]
             2 [] start); [|simpl; lia].
    apply (enumerates_more _ _ _ EmptyString [] ["a"] "t1"
             [CallListClusters "eu-north-1" (pageRequest 100 EmptyString)]);
      [reflexivity | discriminate |].
    apply enumerates_error. reflexivity.
Defined.

(** C6 as stated fails: the first region returns one page and fails on its
    second request; its error is logged, the second region is listed and
    no error is returned, but the page fetched before the failure stays in
    the result, which is not the items of the succeeding region alone. *)
Lemma partial_pages_kept_counterexample :
  eks.doListClusters (mockEKS Panic flakyListing updateOutput)
    ["eu-north-1"; "us-west-2"] 2 testProvider 100 [] true start
  = Some (Ok tt,
          [ {| api.Name := "a"; api.Region := "eu-north-1" |};
            {| api.Name := "b"; api.Region := "us-west-2" |} ],
          {| world :=
               [CallListClusters "eu-north-1" (pageRequest 100 EmptyString);
                CallListClusters "eu-north-1" (pageRequest 100 "t1");
                CallListClusters "us-west-2" (pageRequest 100 EmptyString)];
             logs := [LogCriticalListing "eu-north-1"
                        (listingError (ErrExternal "throttled"))] |})
  ∧ succeedingItems
      [("eu-north-1", [["a"]], Some (ErrExternal "throttled"));
       ("us-west-2", [["b"]], None)]
    = [ {| api.Name := "b"; api.Region := "us-west-2" |} ]
  ∧ [ {| api.Name := "a"; api.Region := "eu-north-1" |};
      {| api.Name := "b"; api.Region := "us-west-2" |} ]
    ≠ [ {| api.Name := "b"; api.Region := "us-west-2" |} ].
Proof.
  split; [vm_compute; reflexivity|]. split; [reflexivity|]. discriminate.
Qed.

(** C6, amended: with [eachRegion] set, [doListClusters] enumerates the
    regions one after the other, logs the error of each region that fails,
    goes on with the regions that remain and returns no error; the result
    is extended by the items of every page that was fetched, region after
    region, the pages a failing region returned before its error
    included. When every failing region fails before it returns any item,
    these are the items of the succeeding regions. *)
Theorem doListClusters_each_region {W : Type} (EKS : EKSAPI W) (regions : list string)
    (c : eks.ClusterProvider) (chunkSize : Z) (outcomes : list PartitionOutcome)
    (w' : W) (fuel : nat) (allClusters : list api.ClusterMeta) (s : State W) :
  enumeratesRegions EKS chunkSize regions (world s) outcomes w' →
  Forall (λ outcome : PartitionOutcome, length outcome.1.2 < fuel) outcomes →
  eks.doListClusters EKS regions fuel c chunkSize allClusters true s
  = Some (Ok tt, allClusters ++ fetchedItems outcomes,
          {| world := w'; logs := logs s ++ loggedFailures outcomes |})
  ∧ ((∀ region pages e, (region, pages, Some e) ∈ outcomes → concat pages = []) →
     fetchedItems outcomes = succeedingItems outcomes).
Proof.
  intros Hregions Hfuel. split.
  - unfold eks.doListClusters. destruct s as [w entries].
    by apply listRegions_enumerates.
  - apply fetched_is_succeeding.
Qed.

Lemma doListClusters_each_region_witness :
  eks.doListClusters (mockEKS Panic flakyListing updateOutput)
    ["eu-north-1"; "us-west-2"] 2 testProvider 100 [] true start
  = Some (Ok tt,
          fetchedItems [("eu-north-1", [["a"]], Some (ErrExternal "throttled"));
                        ("us-west-2", [["b"]], None)],
          {| world :=
               [CallListClusters "eu-north-1" (pageRequest 100 EmptyString);
                CallListClusters "eu-north-1" (pageRequest 100 "t1");
                CallListClusters "us-west-2" (pageRequest 100 EmptyString)];
             logs := [LogCriticalListing "eu-north-1"
                        (listingError (ErrExternal "throttled"))] |}).
Proof.
  apply (doListClusters_each_region (mockEKS Panic flakyListing updateOutput)
           ["eu-north-1"; "us-west-2"] testProvider 100
           [("eu-north-1", [["a"]], Some (ErrExternal "throttled"));
            ("us-west-2", [["b"]], None)]
           _ 2 [] start).
  - apply (enumeratesRegions_cons _ _ "eu-north-1" ["us-west-2"] [] [["a"]]
             (Some (ErrExternal "throttled"))
             [CallListClusters "eu-north-1" (pageRequest 100 EmptyString);
              CallListClusters "eu-north-1" (pageRequest 100 "t1")]).
    + apply (enumerates_more _ _ _ EmptyString [] ["a"] "t1"
               [CallListClusters "eu-north-1" (pageRequest 100 EmptyString)]);
        [reflexivity | discriminate |].
      apply enumerates_error. reflexivity.
    + apply (enumeratesRegions_cons _ _ "us-west-2" [] _ [["b"]] None
               [CallListClusters "eu-north-1" (pageRequest 100 EmptyString);
                CallListClusters "eu-north-1" (pageRequest 100 "t1");
                CallListClusters "us-west-2" (pageRequest 100 EmptyString)]).
      * apply (enumerates_last _ _ _ EmptyString _ ["b"] None);
          [reflexivity | by left].
      * apply enumeratesRegions_nil.
  - repeat constructor.
Defined.

(** ** Waiting for the control plane *)

Section Waiting.

Variables (c : eks.ClusterProvider) (id : api.ClusterMeta).

(** Ticks whose check fails are passed over. *)
Lemma waitLoop_failing_ticks errs events :
  eks.waitLoop c id ((eks.TickerC ∘ Some <$> errs) ++ events) = eks.waitLoop c id events.
Proof. induction errs as [|e errs IH]; simpl; done. Qed.

(** A loop that returns has consumed failing ticks and then one event
    that ends it. *)
Lemma waitLoop_returned events r rest :
  eks.waitLoop c id events = (eks.Returned r, rest) →
  ∃ errs last,
    events = (eks.TickerC ∘ Some <$> errs) ++ last :: rest
    ∧ ((last = eks.TimerC
        ∧ r = Some (ErrTimedOut (api.Name id)
                      (api.Provider_WaitTimeout (eks.Provider c))))
       ∨ (last = eks.TickerC None ∧ r = None)).
Proof.
  induction events as [|[[e|]|] events IH]; simpl; intros Hloop.
  - discriminate.
  - destruct (IH Hloop) as (errs & last & -> & Hlast).
    by exists (e :: errs), last.
  - injection Hloop as <- <-. exists [], (eks.TickerC None). auto.
  - injection Hloop as <- <-. exists [], eks.TimerC. auto.
Qed.

End Waiting.

(** The reaction of [WaitForControlPlane] to the cases its [select] takes.
    When the check before the loop succeeds it returns nil without
    waiting. Otherwise, when the timer case is taken after ticks whose
    checks all failed, it returns the timeout error with the name of the
    cluster and the wait timeout, and polls no more; when the check of a
    tick succeeds it returns nil at that tick. It returns no other error,
    and whenever it returns, it has consumed failing ticks followed by the
    one event that ended it, and nothing after that event. Which case a
    [select] takes is settled by the readiness of the channels, see
    [eks.Select]. *)
Theorem WaitForControlPlane_outcomes (c : eks.ClusterProvider) (id : api.ClusterMeta) :
  (∀ events, eks.WaitForControlPlane c id None events = (eks.Returned None, events))
  ∧ (∀ e0 errs rest,
       eks.WaitForControlPlane c id (Some e0)
         ((eks.TickerC ∘ Some <$> errs) ++ eks.TimerC :: rest)
       = (eks.Returned (Some (ErrTimedOut (api.Name id)
                                (api.Provider_WaitTimeout (eks.Provider c)))), rest))
  ∧ (∀ e0 errs rest,
       eks.WaitForControlPlane c id (Some e0)
         ((eks.TickerC ∘ Some <$> errs) ++ eks.TickerC None :: rest)
       = (eks.Returned None, rest))
  ∧ (∀ first events e rest,
       eks.WaitForControlPlane c id first events = (eks.Returned (Some e), rest) →
       e = ErrTimedOut (api.Name id) (api.Provider_WaitTimeout (eks.Provider c)))
  ∧ (∀ e0 events r rest,
       eks.WaitForControlPlane c id (Some e0) events = (eks.Returned r, rest) →
       ∃ errs last,
         events = (eks.TickerC ∘ Some <$> errs) ++ last :: rest
         ∧ ((last = eks.TimerC
             ∧ r = Some (ErrTimedOut (api.Name id)
                           (api.Provider_WaitTimeout (eks.Provider c))))
            ∨ (last = eks.TickerC None ∧ r = None))).
Proof.
  repeat split.
  - intros e0 errs rest. simpl. by rewrite waitLoop_failing_ticks.
  - intros e0 errs rest. simpl. by rewrite waitLoop_failing_ticks.
  - intros [e0|] events e rest; simpl; intros Hwait; [|discriminate].
    apply waitLoop_returned in Hwait as (errs & last & _ & [[_ Hr]|[_ Hr]]);
      congruence.
  - intros e0 events r rest Hwait. by apply waitLoop_returned.
Qed.

Lemma WaitForControlPlane_outcomes_witness :
  ErrTimedOut "testcluster" 1500000000000%Z
  = ErrTimedOut (api.Name (api.Metadata (config [])))
      (api.Provider_WaitTimeout (eks.Provider testProvider))
  ∧ ∃ errs last,
      [eks.TickerC (Some (ErrExternal "refused")); eks.TimerC; eks.TickerC None]
      = (eks.TickerC ∘ Some <$> errs) ++ last :: [eks.TickerC None]
      ∧ ((last = eks.TimerC
          ∧ Some (ErrTimedOut "testcluster" 1500000000000%Z)
            = Some (ErrTimedOut (api.Name (api.Metadata (config [])))
                      (api.Provider_WaitTimeout (eks.Provider testProvider))))
         ∨ (last = eks.TickerC None
            ∧ Some (ErrTimedOut "testcluster" 1500000000000%Z) = None)).
Proof.
  split.
  - apply (proj1 (proj2 (proj2 (proj2
             (WaitForControlPlane_outcomes testProvider (api.Metadata (config []))))))
             (Some (ErrExternal "refused"))
             [eks.TickerC (Some (ErrExternal "refused")); eks.TimerC; eks.TickerC None]
             (ErrTimedOut "testcluster" 1500000000000%Z)
             [eks.TickerC None]).
    reflexivity.
  - apply (proj2 (proj2 (proj2 (proj2
             (WaitForControlPlane_outcomes testProvider (api.Metadata (config []))))))
             (ErrExternal "refused")
             [eks.TickerC (Some (ErrExternal "refused")); eks.TimerC; eks.TickerC None]
             (Some (ErrTimedOut "testcluster" 1500000000000%Z))
             [eks.TickerC None]).
    reflexivity.
Defined.

(** ** The update task *)

(** C9: whenever the wrapped call returns, with an error or with nil,
    [Do] on an open channel returns what the call returned, sends nothing
    on the channel and leaves it closed by its one [close]; the channel is
    not left open, and [Do] does not close it a second time, which would
    panic. *)
Theorem Do_closes_channel_once {W : Type} (t : eks.updateClusterConfigTask)
    (queue : list error) (s s' : State W) (r : result unit) :
  eks.task_call t (eks.spec t) s = (r, s') →
  r ≠ Panic →
  eks.Do t (eks.OpenChan queue) s = (r, eks.ClosedChan queue, s')
  ∧ eks.close (eks.ClosedChan queue) = None.
Proof.
  intros Hcall Hr. split; [|done].
  unfold eks.Do. rewrite Hcall. by destruct r.
Qed.

Lemma Do_closes_channel_once_witness :
  eks.Do (loggingTask updateOutput) (eks.OpenChan []) start
  = (Ok tt, eks.ClosedChan [],
     (eks.task_call (loggingTask updateOutput) (config ["api"]) start).2)
  ∧ eks.Do (loggingTask (Err (ErrExternal "denied"))) (eks.OpenChan []) start
    = (Err (ErrExternal "denied"), eks.ClosedChan [],
       (eks.task_call (loggingTask (Err (ErrExternal "denied"))) (config ["api"]) start).2).
Proof.
  split.
  - apply (Do_closes_channel_once (loggingTask updateOutput) [] start);
      [vm_compute; reflexivity | discriminate].
  - apply (Do_closes_channel_once (loggingTask (Err (ErrExternal "denied"))) [] start);
      [vm_compute; reflexivity | discriminate].
Defined.

(** ** The observed logging configuration *)

Section Observed.

Context {W : Type}.
Variable EKS : EKSAPI W.

Lemma DescribeControlPlaneMustBeActive_run c cl (s : State W) :
  eks.DescribeControlPlaneMustBeActive EKS c cl s
  = match DescribeCluster EKS (eks.region c) (describeInput cl) (world s) with
    | (Ok output, w) =>
        let s' := {| world := w; logs := logs s |} in
        match awseks.DescribeCluster_Cluster output with
        | None => (Panic, s')
        | Some cluster =>
            match awseks.Cluster_Status cluster with
            | None => (Panic, s')
            | Some status =>
                if String.eqb status awseks.ClusterStatusActive
                then (Ok cluster, s')
                else match awseks.Cluster_Name cluster with
                     | None => (Panic, s')
                     | Some name =>
                         (Err (ErrClusterStatus name status awseks.ClusterStatusActive), s')
                     end
            end
        end
    | (Err e, w) =>
        (Err (ErrWrap (ErrWrap e "unable to describe cluster control plane")
                      "unable to describe cluster control plane"),
         {| world := w; logs := logs s |})
    | (Panic, w) => (Panic, {| world := w; logs := logs s |})
    end.
Proof.
  unfold eks.DescribeControlPlaneMustBeActive, eks.DescribeControlPlane, describeInput,
    mbind, M_bind, wrapping, call, deref, mret, M_ret, fail, panic.
  destruct (DescribeCluster EKS _ _ _) as [[[[cluster|]]|e|] w]; simpl; try done.
  destruct cluster as [name [status|] logging]; simpl; [|done].
  destruct (String.eqb status awseks.ClusterStatusActive); simpl; [done|].
  by destruct name.
Qed.

End Observed.

(** C10: [GetCurrentClusterConfigForLogging] returns an error when the
    describe call of the provider fails, and also when the cluster it
    describes has a status other than ACTIVE; it returns the two sets only
    for a cluster whose status is ACTIVE. *)
Theorem GetCurrentClusterConfigForLogging_must_be_active {W : Type} (EKS : EKSAPI W)
    (c : eks.ClusterProvider) (cl : api.ClusterMeta) (s : State W) :
  (∀ e w,
     DescribeCluster EKS (eks.region c) (describeInput cl) (world s) = (Err e, w) →
     eks.GetCurrentClusterConfigForLogging EKS c cl s
     = (Err (ErrWrap (ErrWrap (ErrWrap e "unable to describe cluster control plane")
                              "unable to describe cluster control plane")
                     "unable to retrieve current cluster logging configuration"),
        {| world := w; logs := logs s |}))
  ∧ (∀ cluster name status w,
       DescribeCluster EKS (eks.region c) (describeInput cl) (world s)
       = (Ok {| awseks.DescribeCluster_Cluster := Some cluster |}, w) →
       awseks.Cluster_Name cluster = Some name →
       awseks.Cluster_Status cluster = Some status →
       status ≠ "ACTIVE" →
       eks.GetCurrentClusterConfigForLogging EKS c cl s
       = (Err (ErrWrap (ErrClusterStatus name status "ACTIVE")
                       "unable to retrieve current cluster logging configuration"),
          {| world := w; logs := logs s |}))
  ∧ (∀ observed s',
       eks.GetCurrentClusterConfigForLogging EKS c cl s = (Ok observed, s') →
       ∃ cluster,
         DescribeCluster EKS (eks.region c) (describeInput cl) (world s)
         = (Ok {| awseks.DescribeCluster_Cluster := Some cluster |}, world s')
         ∧ awseks.Cluster_Status cluster = Some "ACTIVE").
Proof.
  unfold eks.GetCurrentClusterConfigForLogging, mbind, M_bind, wrapping.
  rewrite DescribeControlPlaneMustBeActive_run.
  split; [|split].
  - intros e w ->. done.
  - intros cluster name status w -> Hname Hstatus Hactive.
    cbn [awseks.DescribeCluster_Cluster]. rewrite Hstatus.
    apply String.eqb_neq in Hactive.
    change awseks.ClusterStatusActive with "ACTIVE".
    by rewrite Hactive, Hname.
  - intros observed s'.
    destruct (DescribeCluster EKS _ _ _) as [[[[cluster|]]|e|] w]; simpl; try done.
    destruct (awseks.Cluster_Status cluster) as [status|] eqn:Hstatus; [|done].
    destruct (String.eqb_spec status awseks.ClusterStatusActive) as [->|Hne].
    + intros Hrun. exists cluster. split; [|done].
      unfold deref, outcome, mret, M_ret, panic in Hrun.
      destruct (awseks.Cluster_Logging cluster); by injection Hrun as _ <-.
    + by destruct (awseks.Cluster_Name cluster).
Qed.

Lemma GetCurrentClusterConfigForLogging_must_be_active_witness :
  eks.GetCurrentClusterConfigForLogging
    (mockEKS (Err (ErrExternal "no such cluster")) noClusters updateOutput)
    testProvider (api.Metadata (config [])) start
  = (Err (ErrWrap (ErrWrap (ErrWrap (ErrExternal "no such cluster")
                                    "unable to describe cluster control plane")
                           "unable to describe cluster control plane")
                  "unable to retrieve current cluster logging configuration"),
     {| world := [CallDescribeCluster "us-west-2" (describeInput (api.Metadata (config [])))];
        logs := [] |})
  ∧ eks.GetCurrentClusterConfigForLogging
      (mockEKS (describeOutput "CREATING") noClusters updateOutput)
      testProvider (api.Metadata (config [])) start
    = (Err (ErrWrap (ErrClusterStatus "testcluster" "CREATING" "ACTIVE")
                    "unable to retrieve current cluster logging configuration"),
       {| world := [CallDescribeCluster "us-west-2" (describeInput (api.Metadata (config [])))];
          logs := [] |})
  ∧ ∃ cluster,
      (describeOutput "ACTIVE",
       [CallDescribeCluster "us-west-2" (describeInput (api.Metadata (config [])))])
      = (Ok {| awseks.DescribeCluster_Cluster := Some cluster |},
         [CallDescribeCluster "us-west-2" (describeInput (api.Metadata (config [])))])
      ∧ awseks.Cluster_Status cluster = Some "ACTIVE".
Proof.
  split; [|split].
  - apply (proj1 (GetCurrentClusterConfigForLogging_must_be_active
                    (mockEKS (Err (ErrExternal "no such cluster")) noClusters updateOutput)
                    testProvider (api.Metadata (config [])) start)).
    reflexivity.
  - apply (proj1 (proj2 (GetCurrentClusterConfigForLogging_must_be_active
                    (mockEKS (describeOutput "CREATING") noClusters updateOutput)
                    testProvider (api.Metadata (config [])) start))
                 (fakeCluster "CREATING") "testcluster" "CREATING").
    + reflexivity.
    + reflexivity.
    + reflexivity.
    + discriminate.
  - apply (proj2 (proj2 (GetCurrentClusterConfigForLogging_must_be_active
                    (mockEKS (describeOutput "ACTIVE") noClusters updateOutput)
                    testProvider (api.Metadata (config [])) start))
                 (sets.NewString ["api"; "audit"],
                  sets.NewString ["controllerManager"; "authenticator"; "scheduler"])
                 {| world := [CallDescribeCluster "us-west-2"
                                (describeInput (api.Metadata (config [])))];
                    logs := [] |}).
    vm_compute. reflexivity.
Defined.

(** An error of the fetch of the observed state is the result of
    [doEnableLogging]: the reconciliation is not reached. *)
Lemma doEnableLogging_stops_without_observed {W : Type} (EKS : EKSAPI W)
    waiters_Wait Load IsSupportedRegion ErrUnsupportedRegion CheckAuth LogObj
    (rc0 rc : utils.ResourceCmd) (cfg : api.ClusterConfig) (s s' : State W)
    (w1 w2 : W) (e : error) :
  Load rc0 (world s) = (Ok rc, w1) →
  api.SetClusterConfigDefaults (utils.ClusterConfig rc) = (cfg, None) →
  IsSupportedRegion (eks.New (utils.ProviderConfig rc)) = true →
  CheckAuth (eks.New (utils.ProviderConfig rc)) w1 = (Ok tt, w2) →
  eks.GetCurrentClusterConfigForLogging EKS (eks.New (utils.ProviderConfig rc))
    (api.Metadata cfg)
    {| world := w2; logs := logs s ++ [LogInfoRegion (api.Region (api.Metadata cfg))] |}
  = (Err e, s') →
  utils.doEnableLogging EKS waiters_Wait Load IsSupportedRegion ErrUnsupportedRegion
                        CheckAuth LogObj rc0 s
  = (Err e, s').
Proof.
  intros Hload Hdefaults Hregion Hauth Hobserved.
  unfold utils.doEnableLogging, mbind, M_bind, call.
  rewrite Hload. cbn [world logs]. rewrite Hdefaults, Hregion.
  cbn [negb]. unfold log at 1. cbn [world logs]. rewrite Hauth.
  by rewrite Hobserved.
Qed.

(** * Further properties *)

(** ** More on [SetClusterConfigDefaults] *)

Section DefaultsMore.

Lemma validateLogTypes_None l :
  api.validateLogTypes l = None
  ↔ Forall (λ x, x ∈ api.SupportedCloudWatchClusterLoggingTypes) l.
Proof.
  split; [|apply validateLogTypes_known].
  induction l as [|x l IH]; simpl; [done|].
  destruct (api.isUnknown x) eqn:Hx; [done|].
  intros Hrest. constructor; [by apply isUnknown_false | auto].
Qed.

Lemma validateLogTypes_Some l e :
  api.validateLogTypes l = Some e →
  ∃ x, (x ∈ l) ∧ (x ∉ api.SupportedCloudWatchClusterLoggingTypes)
       ∧ e = ErrLogTypeUnknown x.
Proof.
  induction l as [|y l IH]; simpl; [done|].
  destruct (api.isUnknown y) eqn:Hy.
  - intros [= <-]. exists y. split; [apply list_elem_of_here|].
    split; [by apply isUnknown_true | done].
  - intros Hrest. destruct (IH Hrest) as (x & Hin & Hx & ->).
    exists x. split; [by apply list_elem_of_further | done].
Qed.

Lemma expandWildcards_cases declared :
  api.expandWildcards declared = api.SupportedCloudWatchClusterLoggingTypes
  ∨ api.expandWildcards declared = declared.
Proof.
  destruct (decide (Exists (λ x, api.isWildcard x = true) declared)) as [Hw|Hw].
  - left. apply expand_fold_wildcard. by apply Exists_exists.
  - right. apply expand_fold_plain. intros x Hx.
    destruct (api.isWildcard x) eqn:Hwx; [|done].
    exfalso. apply Hw, Exists_exists. eauto.
Qed.

Lemma expandWildcards_idemp declared :
  api.expandWildcards (api.expandWildcards declared) = api.expandWildcards declared.
Proof.
  destruct (expandWildcards_cases declared) as [Hexp|Hexp]; rewrite Hexp;
    [reflexivity | exact Hexp].
Qed.

End DefaultsMore.

(** X1: [SetClusterConfigDefaults] is idempotent: on the configuration it
    leaves behind, a second call changes nothing and returns the same
    error. *)
Theorem SetClusterConfigDefaults_idempotent (cfg : api.ClusterConfig) :
  api.SetClusterConfigDefaults (api.SetClusterConfigDefaults cfg).1
  = api.SetClusterConfigDefaults cfg.
Proof.
  unfold api.SetClusterConfigDefaults.
  destruct (api.declaredEnableTypes cfg) as [declared|] eqn:Hdecl; simpl.
  - by rewrite expandWildcards_idemp.
  - by rewrite Hdecl.
Qed.

(** X2: a call of [SetClusterConfigDefaults] that returns an error has
    left the configuration as it was, and the error names an entry of the
    declared list that is not a supported type; a call that returns nil
    leaves a list of supported types only, so no wildcard remains. *)
Theorem SetClusterConfigDefaults_outcome (cfg cfg' : api.ClusterConfig) (err : option error) :
  api.SetClusterConfigDefaults cfg = (cfg', err) →
  match err with
  | Some e =>
      cfg' = cfg
      ∧ ∃ x, (x ∈ declaredOrNone cfg)
             ∧ (x ∉ api.SupportedCloudWatchClusterLoggingTypes)
             ∧ e = ErrLogTypeUnknown x
  | None =>
      Forall (λ x, (x ∈ api.SupportedCloudWatchClusterLoggingTypes) ∧ x ≠ "all" ∧ x ≠ "*")
             (declaredOrNone cfg')
  end.
Proof.
  unfold api.SetClusterConfigDefaults, declaredOrNone.
  destruct (api.declaredEnableTypes cfg) as [declared|] eqn:Hdecl.
  - intros [= <- <-].
    destruct (api.validateLogTypes (api.expandWildcards declared)) as [e|] eqn:Hval.
    + destruct (expandWildcards_cases declared) as [Hexp|Hexp]; rewrite Hexp in *.
      * by vm_compute in Hval.
      * split; [by apply setEnableTypes_same|]. by apply validateLogTypes_Some.
    + simpl. apply validateLogTypes_None in Hval.
      eapply Forall_impl; [exact Hval|]. intros x Hx. split; [done|].
      split; intros ->; by apply isUnknown_false in Hx.
  - intros [= <- <-]. rewrite Hdecl. constructor.
Qed.

Lemma SetClusterConfigDefaults_outcome_witness :
  (api.SetClusterConfigDefaults (config ["audit"; "anything"])).1 = config ["audit"; "anything"]
  ∧ Forall (λ x, (x ∈ api.SupportedCloudWatchClusterLoggingTypes) ∧ x ≠ "all" ∧ x ≠ "*")
           (declaredOrNone (api.SetClusterConfigDefaults (config ["scheduler"; "all"])).1).
Proof.
  split.
  - apply (SetClusterConfigDefaults_outcome (config ["audit"; "anything"]) _
             (Some (ErrLogTypeUnknown "anything"))).
    reflexivity.
  - apply (SetClusterConfigDefaults_outcome (config ["scheduler"; "all"]) _ None).
    reflexivity.
Defined.

(** ** Reading the logging configuration back *)

Section ObservedSets.

Lemma collectTypes_names flag names (acc : gset string * gset string) :
  eks.collectTypes flag (awseks.StringSlice names) acc
  = Ok (if api.IsEnabled flag then acc.1 ∪ list_to_set names else acc.1,
        if api.IsDisabled flag then acc.2 ∪ list_to_set names else acc.2).
Proof.
  revert acc. induction names as [|name names IH]; intros [enabled disabled]; simpl.
  - destruct (api.IsEnabled flag), (api.IsDisabled flag); f_equal; f_equal; set_solver.
  - unfold awseks.StringSlice in IH. rewrite IH.
    unfold sets.Insert. simpl.
    destruct (api.IsEnabled flag), (api.IsDisabled flag); f_equal; f_equal; set_solver.
Qed.

Lemma collectLogging_setups setups (acc : gset string * gset string) :
  eks.collectLogging (logSetupOf <$> setups) acc
  = Ok (acc.1 ∪ typesWhere api.IsEnabled setups,
        acc.2 ∪ typesWhere api.IsDisabled setups).
Proof.
  revert acc. induction setups as [|[flag names] setups IH]; intros [enabled disabled].
  - unfold typesWhere. simpl. f_equal. f_equal; set_solver.
  - cbn [fmap list_fmap logSetupOf eks.collectLogging awseks.LogSetup_Enabled
         awseks.LogSetup_Types fst snd].
    rewrite collectTypes_names.
    change (list_fmap _ _ logSetupOf setups) with (logSetupOf <$> setups).
    rewrite IH. unfold typesWhere. simpl.
    destruct (api.IsEnabled flag), (api.IsDisabled flag); f_equal; f_equal; set_solver.
Qed.

Lemma collectTypes_nil_type flag types (acc : gset string * gset string) :
  None ∈ types → eks.collectTypes flag types acc = Err ErrNilString.
Proof.
  revert acc. induction types as [|[t|] types IH]; intros acc Hnil; simpl.
  - by apply elem_of_nil in Hnil.
  - apply IH. by apply elem_of_cons in Hnil as [?|?].
  - done.
Qed.

Lemma collectTypes_Ok_or_nil flag types (acc : gset string * gset string) :
  (∃ acc', eks.collectTypes flag types acc = Ok acc')
  ∨ eks.collectTypes flag types acc = Err ErrNilString.
Proof.
  revert acc. induction types as [|[t|] types IH]; intros acc; simpl; eauto.
Qed.

Lemma collectLogging_nil_type setups (acc : gset string * gset string) :
  Forall (λ setup, is_Some setup) setups →
  (∃ setup, Some setup ∈ setups ∧ None ∈ awseks.LogSetup_Types setup) →
  eks.collectLogging setups acc = Err ErrNilString.
Proof.
  intros Hsome. revert acc.
  induction Hsome as [|setup0 setups [i ->] _ IH]; intros acc (setup & Hin & Hnil).
  - by apply elem_of_nil in Hin.
  - simpl.
    destruct (collectTypes_Ok_or_nil (awseks.LogSetup_Enabled i)
                (awseks.LogSetup_Types i) acc) as [[acc' Hok]|Herr];
      [|by rewrite Herr].
    rewrite Hok. apply IH. exists setup. split; [|done].
    apply elem_of_cons in Hin as [[= ->]|Hin]; [|done].
    by rewrite collectTypes_nil_type in Hok.
Qed.

Context {W : Type}.
Variable EKS : EKSAPI W.

Lemma GetCurrentClusterConfigForLogging_active c cl (s : State W) name logging w :
  DescribeCluster EKS (eks.region c) (describeInput cl) (world s)
  = (Ok {| awseks.DescribeCluster_Cluster := Some (activeCluster name (Some logging)) |}, w) →
  eks.GetCurrentClusterConfigForLogging EKS c cl s
  = (eks.collectLogging (awseks.ClusterLogging logging) (∅, ∅),
     {| world := w; logs := logs s |}).
Proof.
  intros Hdescribe.
  unfold eks.GetCurrentClusterConfigForLogging, mbind, M_bind, wrapping.
  rewrite DescribeControlPlaneMustBeActive_run, Hdescribe. simpl.
  by destruct (eks.collectLogging _ _).
Qed.

Lemma GetCurrentClusterConfigForLogging_setups c cl (s : State W) name setups w :
  DescribeCluster EKS (eks.region c) (describeInput cl) (world s)
  = (Ok {| awseks.DescribeCluster_Cluster :=
             Some (activeCluster name
                     (Some {| awseks.ClusterLogging := logSetupOf <$> setups |})) |}, w) →
  eks.GetCurrentClusterConfigForLogging EKS c cl s
  = (Ok (typesWhere api.IsEnabled setups, typesWhere api.IsDisabled setups),
     {| world := w; logs := logs s |}).
Proof.
  intros Hdescribe.
  rewrite (GetCurrentClusterConfigForLogging_active c cl s name _ w Hdescribe).
  cbn [awseks.ClusterLogging]. rewrite collectLogging_setups.
  cbn [fst snd]. by rewrite !(left_id_L ∅ (∪)).
Qed.

Lemma GetCurrentClusterConfigForLogging_sent c cl (s : State W) cfg name w :
  DescribeCluster EKS (eks.region c) (describeInput cl) (world s)
  = (Ok {| awseks.DescribeCluster_Cluster :=
             Some (activeCluster name
                     (awseks.UpdateClusterConfig_Logging (eks.loggingUpdateInput cfg))) |},
     w) →
  eks.GetCurrentClusterConfigForLogging EKS c cl s
  = (Ok (eks.enabledTypes cfg, eks.disabledTypes cfg), {| world := w; logs := logs s |}).
Proof.
  intros Hdescribe.
  rewrite (GetCurrentClusterConfigForLogging_setups c cl s name
             [(api.Enabled, sets.List (eks.enabledTypes cfg));
              (api.Disabled, sets.List (eks.disabledTypes cfg))] w Hdescribe).
  unfold typesWhere. simpl. rewrite !app_nil_r.
  do 2 f_equal; f_equal; apply set_eq; intros x;
    by rewrite elem_of_list_to_set, sets_elem_of_List.
Qed.

Lemma updateRequired_own_sets cfg :
  utils.updateRequired (eks.enabledTypes cfg) cfg = false.
Proof. unfold utils.updateRequired. apply negb_false_iff. by apply sets_Equal_eq. Qed.

End ObservedSets.

(** X3: for an ACTIVE cluster whose logging setups and type names are all
    present, [GetCurrentClusterConfigForLogging] returns as enabled the
    names of the setups flagged true and as disabled the names of the
    setups flagged false; a setup without flag adds to neither set. *)
Theorem GetCurrentClusterConfigForLogging_sets {W : Type} (EKS : EKSAPI W)
    (c : eks.ClusterProvider) (cl : api.ClusterMeta) (s : State W)
    (name : option string) (setups : list (option bool * list string)) (w : W) :
  DescribeCluster EKS (eks.region c) (describeInput cl) (world s)
  = (Ok {| awseks.DescribeCluster_Cluster :=
             Some (activeCluster name
                     (Some {| awseks.ClusterLogging := logSetupOf <$> setups |})) |}, w) →
  eks.GetCurrentClusterConfigForLogging EKS c cl s
  = (Ok (typesWhere api.IsEnabled setups, typesWhere api.IsDisabled setups),
     {| world := w; logs := logs s |})
  ∧ (∀ x, x ∈ typesWhere api.IsEnabled setups
          ↔ ∃ names, (Some true, names) ∈ setups ∧ x ∈ names)
  ∧ (∀ x, x ∈ typesWhere api.IsDisabled setups
          ↔ ∃ names, (Some false, names) ∈ setups ∧ x ∈ names).
Proof.
  intros Hdescribe. split; [|split].
  - by apply (GetCurrentClusterConfigForLogging_setups EKS c cl s name).
  - intros x. unfold typesWhere. rewrite elem_of_list_to_set, list_elem_of_bind. split.
    + intros ([[[]|] names] & Hx & Hin); simpl in Hx;
        [eauto | by apply elem_of_nil in Hx | by apply elem_of_nil in Hx].
    + intros (names & Hin & Hx). by exists (Some true, names).
  - intros x. unfold typesWhere. rewrite elem_of_list_to_set, list_elem_of_bind. split.
    + intros ([[[]|] names] & Hx & Hin); simpl in Hx;
        [by apply elem_of_nil in Hx | eauto | by apply elem_of_nil in Hx].
    + intros (names & Hin & Hx). by exists (Some false, names).
Qed.

Lemma GetCurrentClusterConfigForLogging_sets_witness :
  eks.GetCurrentClusterConfigForLogging
    (mockEKS (describeOutput "ACTIVE") noClusters updateOutput)
    testProvider (api.Metadata (config [])) start
  = (Ok (typesWhere api.IsEnabled
           [(Some true, ["api"; "audit"]);
            (Some false, ["controllerManager"; "authenticator"; "scheduler"])],
         typesWhere api.IsDisabled
           [(Some true, ["api"; "audit"]);
            (Some false, ["controllerManager"; "authenticator"; "scheduler"])]),
     {| world := [CallDescribeCluster "us-west-2" (describeInput (api.Metadata (config [])))];
        logs := [] |}).
Proof.
  apply (GetCurrentClusterConfigForLogging_sets
           (mockEKS (describeOutput "ACTIVE") noClusters updateOutput)
           testProvider (api.Metadata (config [])) start (Some "testcluster")
           [(Some true, ["api"; "audit"]);
            (Some false, ["controllerManager"; "authenticator"; "scheduler"])]).
  reflexivity.
Defined.

(** X4: when the response for an ACTIVE cluster has no nil setup but a nil
    type name in some setup, [GetCurrentClusterConfigForLogging] returns
    the nil-string error, not wrapped, and no sets. *)
Theorem GetCurrentClusterConfigForLogging_nil_type {W : Type} (EKS : EKSAPI W)
    (c : eks.ClusterProvider) (cl : api.ClusterMeta) (s : State W)
    (name : option string) (setups : list (option awseks.LogSetup)) (w : W) :
  DescribeCluster EKS (eks.region c) (describeInput cl) (world s)
  = (Ok {| awseks.DescribeCluster_Cluster :=
             Some (activeCluster name (Some {| awseks.ClusterLogging := setups |})) |}, w) →
  Forall (λ setup, is_Some setup) setups →
  (∃ setup, Some setup ∈ setups ∧ None ∈ awseks.LogSetup_Types setup) →
  eks.GetCurrentClusterConfigForLogging EKS c cl s
  = (Err ErrNilString, {| world := w; logs := logs s |}).
Proof.
  intros Hdescribe Hsome Hnil.
  rewrite (GetCurrentClusterConfigForLogging_active EKS c cl s name _ w Hdescribe).
  cbn [awseks.ClusterLogging]. by rewrite collectLogging_nil_type.
Qed.

Lemma GetCurrentClusterConfigForLogging_nil_type_witness :
  eks.GetCurrentClusterConfigForLogging
    (mockEKS (Ok {| awseks.DescribeCluster_Cluster := Some nilTypeCluster |})
             noClusters updateOutput)
    testProvider (api.Metadata (config [])) start
  = (Err ErrNilString,
     {| world := [CallDescribeCluster "us-west-2" (describeInput (api.Metadata (config [])))];
        logs := [] |}).
Proof.
  apply (GetCurrentClusterConfigForLogging_nil_type
           (mockEKS (Ok {| awseks.DescribeCluster_Cluster := Some nilTypeCluster |})
                    noClusters updateOutput)
           testProvider (api.Metadata (config [])) start (Some "testcluster")
           [ Some {| awseks.LogSetup_Enabled := api.Enabled;
                     awseks.LogSetup_Types := [Some "api"] |};
             Some {| awseks.LogSetup_Enabled := api.Disabled;
                     awseks.LogSetup_Types := [Some "audit"; None] |} ]).
  - reflexivity.
  - repeat constructor; eauto.
  - exists {| awseks.LogSetup_Enabled := api.Disabled;
              awseks.LogSetup_Types := [Some "audit"; None] |}.
    split; [apply list_elem_of_further, list_elem_of_here|].
    apply list_elem_of_further, list_elem_of_here.
Defined.

(** X5: what [UpdateClusterConfigForLogging] sends, read back by
    [GetCurrentClusterConfigForLogging] from an ACTIVE cluster that carries
    it, gives the enabled and disabled sets of the configuration, and
    [doEnableLogging] then finds no update required. *)
Theorem update_then_observe_up_to_date {W : Type} (EKS : EKSAPI W)
    (c : eks.ClusterProvider) (cl : api.ClusterMeta) (s : State W)
    (cfg : api.ClusterConfig) (name : option string) (w : W) :
  DescribeCluster EKS (eks.region c) (describeInput cl) (world s)
  = (Ok {| awseks.DescribeCluster_Cluster :=
             Some (activeCluster name
                     (awseks.UpdateClusterConfig_Logging (eks.loggingUpdateInput cfg))) |},
     w) →
  eks.GetCurrentClusterConfigForLogging EKS c cl s
  = (Ok (eks.enabledTypes cfg, eks.disabledTypes cfg), {| world := w; logs := logs s |})
  ∧ utils.updateRequired (eks.enabledTypes cfg) cfg = false.
Proof.
  intros Hdescribe. split.
  - by apply (GetCurrentClusterConfigForLogging_sent EKS c cl s cfg name).
  - apply updateRequired_own_sets.
Qed.

Lemma update_then_observe_up_to_date_witness :
  eks.GetCurrentClusterConfigForLogging
    (mockEKS (Ok {| awseks.DescribeCluster_Cluster :=
                      Some (activeCluster (Some "testcluster")
                              (awseks.UpdateClusterConfig_Logging
                                 (eks.loggingUpdateInput (config ["scheduler"; "api"])))) |})
             noClusters updateOutput)
    testProvider (api.Metadata (config [])) start
  = (Ok (eks.enabledTypes (config ["scheduler"; "api"]),
         eks.disabledTypes (config ["scheduler"; "api"])),
     {| world := [CallDescribeCluster "us-west-2" (describeInput (api.Metadata (config [])))];
        logs := [] |}).
Proof.
  apply (update_then_observe_up_to_date
           (mockEKS (Ok {| awseks.DescribeCluster_Cluster :=
                             Some (activeCluster (Some "testcluster")
                                     (awseks.UpdateClusterConfig_Logging
                                        (eks.loggingUpdateInput
                                           (config ["scheduler"; "api"])))) |})
                    noClusters updateOutput)
           testProvider (api.Metadata (config [])) start
           (config ["scheduler"; "api"]) (Some "testcluster")).
  reflexivity.
Defined.

(** ** The disabled types sent to the provider *)

Section SentDisabled.

Lemma StronglySorted_filter {A} (R : relation A) (P : A → Prop)
    `{∀ x, Decision (P x)} (l : list A) :
  StronglySorted R l → StronglySorted R (filter P l).
Proof.
  induction 1 as [|x l _ IH Hx]; [constructor|].
  rewrite filter_cons. case_decide; [|done].
  constructor; [done|]. rewrite Forall_forall in Hx. apply Forall_forall.
  intros y Hy. apply Hx. by apply list_elem_of_filter in Hy as [_ ?].
Qed.

Lemma supported_StronglySorted :
  StronglySorted String.le api.SupportedCloudWatchClusterLoggingTypes.
Proof. apply Sorted_StronglySorted; [apply _|]. compute_done. Qed.

End SentDisabled.

Lemma sent_enabled_types_sorted_aux (cfg : api.ClusterConfig) :
  sentEnabledTypes (eks.loggingUpdateInput cfg)
  = awseks.StringSlice (sets.List (eks.enabledTypes cfg))
  ∧ (∀ x, x ∈ sets.List (eks.enabledTypes cfg) → x ∈ declaredOrNone cfg).
Proof.
  split; [done|]. intros x.
  rewrite sets_elem_of_List, enabledTypes_declared. apply elem_of_list_to_set.
Qed.

Lemma sentDisabledTypes_input (cfg : api.ClusterConfig) :
  sentDisabledTypes (eks.loggingUpdateInput cfg)
  = awseks.StringSlice (sets.List (eks.disabledTypes cfg)).
Proof. done. Qed.

(** X6: the disabled types that [UpdateClusterConfigForLogging] sends are
    the supported types that the declared list does not contain, in the
    canonical order of the universe; for an empty declared list they are
    the whole universe. *)
Theorem sent_disabled_types_canonical (cfg : api.ClusterConfig) :
  sentDisabledTypes (eks.loggingUpdateInput cfg)
  = awseks.StringSlice
      (filter (λ t, t ∉ declaredOrNone cfg) api.SupportedCloudWatchClusterLoggingTypes)
  ∧ (declaredOrNone cfg = [] →
     sentDisabledTypes (eks.loggingUpdateInput cfg)
     = awseks.StringSlice api.SupportedCloudWatchClusterLoggingTypes
     ∧ sentEnabledTypes (eks.loggingUpdateInput cfg) = []).
Proof.
  assert (sets.List (eks.disabledTypes cfg)
          = filter (λ t, t ∉ declaredOrNone cfg) api.SupportedCloudWatchClusterLoggingTypes)
    as Hlist.
  { apply sets_List_unique.
    - apply StronglySorted_Sorted, StronglySorted_filter, supported_StronglySorted.
    - apply NoDup_Permutation.
      + apply NoDup_filter. compute_done.
      + apply NoDup_elements.
      + intros x. rewrite list_elem_of_filter, elem_of_elements,
          disabledTypes_difference, enabledTypes_declared, elem_of_difference.
        unfold universe. rewrite !elem_of_list_to_set. tauto. }
  rewrite sentDisabledTypes_input, Hlist. split; [done|].
  intros Hempty. rewrite Hempty. split; [done|].
  destruct (sent_enabled_types_sorted_aux cfg) as [Hsent Hmem].
  rewrite Hsent. destruct (sets.List (eks.enabledTypes cfg)) as [|x l] eqn:Hl; [done|].
  exfalso. assert (x ∈ declaredOrNone cfg) as Hin
    by (apply Hmem; try rewrite Hl; apply list_elem_of_here).
  rewrite Hempty in Hin. by apply elem_of_nil in Hin.
Qed.

Lemma sent_disabled_types_canonical_witness :
  sentDisabledTypes (eks.loggingUpdateInput (config []))
  = awseks.StringSlice api.SupportedCloudWatchClusterLoggingTypes
  ∧ sentEnabledTypes (eks.loggingUpdateInput (config [])) = [].
Proof.
  apply (sent_disabled_types_canonical (config [])). reflexivity.
Defined.

(** ** What listing never does *)

Section ListingInvariants.

Context {W : Type}.
Variable EKS : EKSAPI W.

Lemma appendClusters_extends c clusters allClusters r allClusters' :
  eks.appendClusters c clusters allClusters = (r, allClusters') →
  (∃ names, allClusters' = allClusters ++ clusterMetas (eks.region c) names)
  ∧ ∀ e, r ≠ Err e.
Proof.
  revert allClusters. induction clusters as [|[name|] clusters IH];
    intros allClusters; simpl.
  - intros [= <- <-]. split; [|done]. exists []. by rewrite app_nil_r.
  - intros Hrest. destruct (IH _ Hrest) as [[names ->] Hr]. split; [|done].
    exists (name :: names). by rewrite <- app_assoc.
  - intros [= <- <-]. split; [|done]. exists []. by rewrite app_nil_r.
Qed.

Lemma listPages_extends fuel c chunkSize token allClusters (s : State W) r allClusters' s' :
  eks.listPages EKS fuel c chunkSize token allClusters s = Some (r, allClusters', s') →
  (∃ names, allClusters' = allClusters ++ clusterMetas (eks.region c) names)
  ∧ logs s' = logs s.
Proof.
  revert token allClusters s.
  induction fuel as [|fuel IH]; intros token allClusters s; simpl; [done|].
  rewrite getClustersRequest_run.
  destruct (ListClusters EKS _ _ _) as [[output|e|] w].
  - destruct (eks.appendClusters c (awseks.Clusters output) allClusters)
      as [r1 all1] eqn:Happend.
    destruct (appendClusters_extends _ _ _ _ _ Happend) as [[names ->] Hr1].
    destruct r1 as [[]|e|].
    + destruct (api.IsSetAndNonEmptyString (awseks.NextToken output)).
      * intros Hrest. destruct (IH _ _ _ Hrest) as [[names' ->] Hlogs].
        split; [|done]. exists (names ++ names').
        by rewrite clusterMetas_app, app_assoc.
      * intros [= <- <- <-]. eauto.
    + by destruct (Hr1 e).
    + intros [= <- <- <-]. eauto.
  - intros [= <- <- <-]. split; [|done]. exists []. by rewrite app_nil_r.
  - intros [= <- <- <-]. split; [|done]. exists []. by rewrite app_nil_r.
Qed.

Lemma listRegions_extends fuel c chunkSize regions allClusters (s : State W)
    r allClusters' s' :
  eks.listRegions EKS fuel c chunkSize regions allClusters s = Some (r, allClusters', s') →
  (∃ extra, allClusters' = allClusters ++ extra
            ∧ Forall (λ meta, api.Region meta ∈ regions) extra)
  ∧ (∀ e, r ≠ Err e)
  ∧ ∃ failures,
      logs s' = logs s ++ failures
      ∧ Forall (λ entry, ∃ region e, region ∈ regions
                                     ∧ entry = LogCriticalListing region e) failures.
Proof.
  revert allClusters s.
  induction regions as [|region regions IH]; intros allClusters s; simpl.
  - intros [= <- <- <-]. split; [|split; [done|]].
    + exists []. by rewrite app_nil_r.
    + exists []. by rewrite app_nil_r.
  - destruct (eks.listPages EKS fuel _ chunkSize EmptyString allClusters s)
      as [[[r1 all1] s1]|] eqn:Hpages; [|done].
    destruct (listPages_extends _ _ _ _ _ _ _ _ _ Hpages) as [[names ->] Hlogs1].
    assert (Forall (λ meta, api.Region meta ∈ region :: regions)
                   (clusterMetas region names)) as Hnames.
    { apply Forall_forall. intros meta [name [-> _]]%list_elem_of_fmap.
      apply list_elem_of_here. }
    destruct r1 as [[]|e1|].
    + intros Hrest.
      destruct (IH _ _ Hrest) as ([extra [-> Hextra]] & Hr & failures & Hlogs & Hfail).
      split; [|split; [done|]].
      * exists (clusterMetas region names ++ extra).
        split; [by rewrite app_assoc|]. apply Forall_app. split; [done|].
        eapply Forall_impl; [exact Hextra|]. intros meta ?. by apply list_elem_of_further.
      * exists failures. split; [congruence|].
        eapply Forall_impl; [exact Hfail|].
        intros entry (region' & e & ? & ->). exists region', e.
        split; [by apply list_elem_of_further | done].
    + intros Hrest.
      destruct (IH _ _ Hrest) as ([extra [-> Hextra]] & Hr & failures & Hlogs & Hfail).
      split; [|split; [done|]].
      * exists (clusterMetas region names ++ extra).
        split; [by rewrite app_assoc|]. apply Forall_app. split; [done|].
        eapply Forall_impl; [exact Hextra|]. intros meta ?. by apply list_elem_of_further.
      * exists (LogCriticalListing region e1 :: failures). split.
        -- rewrite Hlogs. simpl. rewrite Hlogs1. by rewrite <- app_assoc.
        -- constructor.
           ++ exists region, e1. split; [apply list_elem_of_here | done].
           ++ eapply Forall_impl; [exact Hfail|].
              intros entry (region' & e & ? & ->). exists region', e.
              split; [by apply list_elem_of_further | done].
    + intros [= <- <- <-]. split; [|split; [done|]].
      * by exists (clusterMetas region names).
      * exists []. rewrite app_nil_r. by split.
Qed.

End ListingInvariants.

(** X7: whatever the provider answers, [doListClusters] only appends to
    [*allClusters]: what was there stays in front, and every cluster added
    carries the region of the provider or, with [eachRegion], one of the
    supported regions. With [eachRegion] it never returns an error and
    logs only listing failures of supported regions; without it, it logs
    nothing. *)
Theorem doListClusters_only_appends {W : Type} (EKS : EKSAPI W) (regions : list string)
    (fuel : nat) (c : eks.ClusterProvider) (chunkSize : Z)
    (allClusters allClusters' : list api.ClusterMeta) (eachRegion : bool)
    (s s' : State W) (r : result unit) :
  eks.doListClusters EKS regions fuel c chunkSize allClusters eachRegion s
  = Some (r, allClusters', s') →
  (∃ extra,
     allClusters' = allClusters ++ extra
     ∧ Forall (λ meta, api.Region meta ∈ if eachRegion then regions else [eks.region c])
              extra)
  ∧ (eachRegion = true → ∀ e, r ≠ Err e)
  ∧ ∃ failures,
      logs s' = logs s ++ failures
      ∧ (eachRegion = false → failures = [])
      ∧ Forall (λ entry, ∃ region e, region ∈ regions
                                     ∧ entry = LogCriticalListing region e) failures.
Proof.
  unfold eks.doListClusters. destruct eachRegion.
  - intros Hrun.
    destruct (listRegions_extends EKS _ _ _ _ _ _ _ _ _ Hrun)
      as (Hextra & Hr & failures & Hlogs & Hfail).
    split; [done|]. split; [done|]. exists failures. by repeat split.
  - intros Hrun.
    destruct (listPages_extends EKS _ _ _ _ _ _ _ _ _ Hrun) as [[names ->] Hlogs].
    split; [|split; [done|]].
    + exists (clusterMetas (eks.region c) names). split; [done|].
      apply Forall_forall. intros meta [name [-> _]]%list_elem_of_fmap.
      apply list_elem_of_here.
    + exists []. rewrite app_nil_r. by repeat split.
Qed.

Lemma doListClusters_only_appends_witness :
  ∃ extra,
    [ {| api.Name := "z"; api.Region := "ap-south-1" |};
      {| api.Name := "a"; api.Region := "eu-north-1" |};
      {| api.Name := "b"; api.Region := "us-west-2" |} ]
    = [ {| api.Name := "z"; api.Region := "ap-south-1" |} ] ++ extra
    ∧ Forall (λ meta, api.Region meta ∈ ["eu-north-1"; "us-west-2"]) extra.
Proof.
  apply (doListClusters_only_appends (mockEKS Panic flakyListing updateOutput)
           ["eu-north-1"; "us-west-2"] 2 testProvider 100
           [ {| api.Name := "z"; api.Region := "ap-south-1" |} ] _ true start
           {| world :=
                [CallListClusters "eu-north-1" (pageRequest 100 EmptyString);
                 CallListClusters "eu-north-1" (pageRequest 100 "t1");
                 CallListClusters "us-west-2" (pageRequest 100 EmptyString)];
              logs := [LogCriticalListing "eu-north-1"
                         (listingError (ErrExternal "throttled"))] |}
           (Ok tt)).
  vm_compute. reflexivity.
Defined.

(** ** More on waiting *)

Section WaitingMore.

Variables (c : eks.ClusterProvider) (id : api.ClusterMeta).

Lemma waitLoop_blocked events rest :
  eks.waitLoop c id events = (eks.Blocked, rest) →
  rest = [] ∧ ∃ errs, events = eks.TickerC ∘ Some <$> errs.
Proof.
  induction events as [|[[e|]|] events IH]; simpl; intros Hloop.
  - injection Hloop as <-. split; [done|]. by exists [].
  - destruct (IH Hloop) as [-> [errs ->]]. split; [done|]. by exists (e :: errs).
  - discriminate.
  - discriminate.
Qed.

Lemma waitLoop_more events r rest more :
  eks.waitLoop c id events = (eks.Returned r, rest) →
  eks.waitLoop c id (events ++ more) = (eks.Returned r, rest ++ more).
Proof.
  induction events as [|[[e|]|] events IH]; simpl; intros Hloop.
  - discriminate.
  - by apply IH.
  - by injection Hloop as <- <-.
  - by injection Hloop as <- <-.
Qed.

End WaitingMore.

(** X8: after a failed first check, [WaitForControlPlane] is still
    waiting exactly when every case taken so far was a tick whose check
    failed; and once it has returned, events that come later change
    neither the result nor what was consumed. *)
Theorem WaitForControlPlane_waits_while_failing (c : eks.ClusterProvider)
    (id : api.ClusterMeta) (e0 : error) (events : list eks.SelectCase) :
  ((eks.WaitForControlPlane c id (Some e0) events).1 = eks.Blocked
   ↔ ∃ errs, events = eks.TickerC ∘ Some <$> errs)
  ∧ (∀ r rest more,
       eks.WaitForControlPlane c id (Some e0) events = (eks.Returned r, rest) →
       eks.WaitForControlPlane c id (Some e0) (events ++ more)
       = (eks.Returned r, rest ++ more)).
Proof.
  split.
  - simpl. split.
    + destruct (eks.waitLoop c id events) as [out rest] eqn:Hloop. simpl.
      intros ->. by apply waitLoop_blocked in Hloop as [_ ?].
    + intros [errs ->]. rewrite <- (app_nil_r (_ <$> errs)).
      by rewrite waitLoop_failing_ticks.
  - intros r rest more. simpl. apply waitLoop_more.
Qed.

Lemma WaitForControlPlane_waits_while_failing_witness :
  eks.WaitForControlPlane testProvider (api.Metadata (config []))
    (Some (ErrExternal "refused"))
    ([eks.TickerC (Some (ErrExternal "refused")); eks.TickerC None] ++ [eks.TimerC])
  = (eks.Returned None, [] ++ [eks.TimerC])
  ∧ (eks.WaitForControlPlane testProvider (api.Metadata (config []))
       (Some (ErrExternal "refused"))
       [eks.TickerC (Some (ErrExternal "refused"));
        eks.TickerC (Some (ErrExternal "refused"))]).1
    = eks.Blocked.
Proof.
  split.
  - apply (proj2 (WaitForControlPlane_waits_while_failing testProvider
                    (api.Metadata (config [])) (ErrExternal "refused")
                    [eks.TickerC (Some (ErrExternal "refused")); eks.TickerC None])).
    reflexivity.
  - apply (proj1 (WaitForControlPlane_waits_while_failing testProvider
                    (api.Metadata (config [])) (ErrExternal "refused")
                    [eks.TickerC (Some (ErrExternal "refused"));
                     eks.TickerC (Some (ErrExternal "refused"))])).
    exists [ErrExternal "refused"; ErrExternal "refused"]. reflexivity.
Defined.

(** ** More on the update task *)

(** X9: when the wrapped call panics, [Do] does not reach [close] and the
    channel stays as it was; and on a channel that is nil or already
    closed, [Do] panics in [close], after the wrapped call has run and had
    its effects. *)
Theorem Do_panics {W : Type} (t : eks.updateClusterConfigTask) (errs : eks.chan)
    (s s' : State W) (r : result unit) :
  eks.task_call t (eks.spec t) s = (r, s') →
  (r = Panic → eks.Do t errs s = (Panic, errs, s'))
  ∧ ((errs = eks.NilChan ∨ ∃ queue, errs = eks.ClosedChan queue) →
     eks.Do t errs s = (Panic, errs, s')).
Proof.
  intros Hcall. unfold eks.Do. rewrite Hcall. split.
  - by intros ->.
  - intros [-> | [queue ->]]; by destruct r.
Qed.

Lemma Do_panics_witness :
  eks.Do (loggingTask updateOutput) (eks.ClosedChan []) start
  = (Panic, eks.ClosedChan [],
     (eks.task_call (loggingTask updateOutput) (config ["api"]) start).2).
Proof.
  apply (Do_panics (loggingTask updateOutput) (eks.ClosedChan []) start _ (Ok tt)).
  - vm_compute. reflexivity.
  - right. by exists [].
Defined.

(** ** Errors of the update *)

(** X10: [UpdateClusterConfigForLogging] returns the error of the update
    call as it is, without waiting and without logging; it returns the
    error of the waiter without logging; it logs the configured types only
    after both have succeeded; and an update call that answers without an
    update, or with an update without type, makes it panic before the
    waiter runs. *)
Theorem UpdateClusterConfigForLogging_outcomes {W : Type} (EKS : EKSAPI W)
    (waiters_Wait : string → awseks.Update → Duration → W → result unit * W)
    (c : eks.ClusterProvider) (cfg : api.ClusterConfig) (s : State W) :
  (∀ e w,
     UpdateClusterConfig EKS (eks.region c) (eks.loggingUpdateInput cfg) (world s)
     = (Err e, w) →
     eks.UpdateClusterConfigForLogging EKS waiters_Wait c cfg s
     = (Err e, {| world := w; logs := logs s |}))
  ∧ (∀ update type w,
       UpdateClusterConfig EKS (eks.region c) (eks.loggingUpdateInput cfg) (world s)
       = (Ok {| awseks.UpdateClusterConfig_Update := Some update |}, w) →
       awseks.Update_Type update = Some type →
       ∀ e w',
         waiters_Wait (api.Name (api.Metadata cfg)) update
                      (api.Provider_WaitTimeout (eks.Provider c)) w = (Err e, w') →
         eks.UpdateClusterConfigForLogging EKS waiters_Wait c cfg s
         = (Err e, {| world := w'; logs := logs s |}))
  ∧ (∀ update type w,
       UpdateClusterConfig EKS (eks.region c) (eks.loggingUpdateInput cfg) (world s)
       = (Ok {| awseks.UpdateClusterConfig_Update := Some update |}, w) →
       awseks.Update_Type update = Some type →
       ∀ w',
         waiters_Wait (api.Name (api.Metadata cfg)) update
                      (api.Provider_WaitTimeout (eks.Provider c)) w = (Ok tt, w') →
         eks.UpdateClusterConfigForLogging EKS waiters_Wait c cfg s
         = (Ok tt,
            {| world := w';
               logs := logs s ++
                 [LogSuccessConfigured (api.Name (api.Metadata cfg))
                    (api.Region (api.Metadata cfg))
                    (eks.describeTypes "no types enabled" "enabled types: "
                       (sets.List (eks.enabledTypes cfg)))
                    (eks.describeTypes "no types disabled" "disabled types: "
                       (sets.List (eks.disabledTypes cfg)))] |}))
  ∧ (∀ update w,
       UpdateClusterConfig EKS (eks.region c) (eks.loggingUpdateInput cfg) (world s)
       = (Ok {| awseks.UpdateClusterConfig_Update := update |}, w) →
       update = None ∨ (∃ u, update = Some u ∧ awseks.Update_Type u = None) →
       eks.UpdateClusterConfigForLogging EKS waiters_Wait c cfg s
       = (Panic, {| world := w; logs := logs s |})).
Proof.
  unfold eks.UpdateClusterConfigForLogging, eks.waitForUpdateToSucceed,
    mbind, M_bind, call, deref, mret, M_ret, panic, log.
  split; [|split; [|split]].
  - by intros e w ->.
  - intros update type w -> Htype e w' Hwait.
    cbn [world logs awseks.UpdateClusterConfig_Update]. rewrite Htype.
    cbn [world logs]. by rewrite Hwait.
  - intros update type w -> Htype w' Hwait.
    cbn [world logs awseks.UpdateClusterConfig_Update]. rewrite Htype.
    cbn [world logs]. by rewrite Hwait.
  - intros update w -> [-> | (u & -> & Htype)];
      cbn [world logs awseks.UpdateClusterConfig_Update]; [done|]. by rewrite Htype.
Qed.

Lemma UpdateClusterConfigForLogging_outcomes_witness :
  eks.UpdateClusterConfigForLogging
    (mockEKS Panic noClusters (Err (ErrExternal "denied"))) mockWait testProvider
    (config ["api"]) start
  = (Err (ErrExternal "denied"),
     {| world := [CallUpdateClusterConfig "us-west-2" (eks.loggingUpdateInput (config ["api"]))];
        logs := [] |})
  ∧ eks.UpdateClusterConfigForLogging
      (mockEKS Panic noClusters (Ok {| awseks.UpdateClusterConfig_Update := None |}))
      mockWait testProvider (config ["api"]) start
    = (Panic,
       {| world := [CallUpdateClusterConfig "us-west-2"
                      (eks.loggingUpdateInput (config ["api"]))];
          logs := [] |}).
Proof.
  split.
  - apply (proj1 (UpdateClusterConfigForLogging_outcomes
                    (mockEKS Panic noClusters (Err (ErrExternal "denied"))) mockWait
                    testProvider (config ["api"]) start)).
    vm_compute. reflexivity.
  - apply (proj2 (proj2 (proj2 (UpdateClusterConfigForLogging_outcomes
                    (mockEKS Panic noClusters (Ok {| awseks.UpdateClusterConfig_Update := None |}))
                    mockWait testProvider (config ["api"]) start))) None).
    + vm_compute. reflexivity.
    + by left.
Defined.

(** ** More on [doEnableLogging] *)

Section EnableLoggingMore.

Context {W : Type}.

Lemma GetCurrentClusterConfigForLogging_ext (EKS1 EKS2 : EKSAPI W) c cl (s : State W) :
  (∀ region input w,
     DescribeCluster EKS1 region input w = DescribeCluster EKS2 region input w) →
  eks.GetCurrentClusterConfigForLogging EKS1 c cl s
  = eks.GetCurrentClusterConfigForLogging EKS2 c cl s.
Proof.
  intros Hdescribe.
  unfold eks.GetCurrentClusterConfigForLogging, mbind, M_bind, wrapping.
  by rewrite !DescribeControlPlaneMustBeActive_run, Hdescribe.
Qed.

Lemma reconcileLogging_plan (EKS1 EKS2 : EKSAPI W) wait1 wait2 LogObj rc ctl cfg
    currentlyEnabled (s : State W) :
  utils.Plan rc = true →
  utils.reconcileLogging EKS1 wait1 LogObj rc ctl cfg currentlyEnabled s
  = utils.reconcileLogging EKS2 wait2 LogObj rc ctl cfg currentlyEnabled s.
Proof.
  intros Hplan. unfold utils.reconcileLogging. rewrite Hplan. done.
Qed.

End EnableLoggingMore.

(** X11: in plan mode [doEnableLogging] makes no update call and does not
    wait: when the loaded command has [Plan] set, its result, the log
    included, is the same for any two providers that describe clusters
    alike, whatever their update calls and waiters do. *)
Theorem doEnableLogging_plan_mode {W : Type} (EKS1 EKS2 : EKSAPI W)
    (wait1 wait2 : string → awseks.Update → Duration → W → result unit * W)
    Load IsSupportedRegion ErrUnsupportedRegion CheckAuth LogObj
    (rc0 : utils.ResourceCmd) (s : State W) :
  (∀ rc w, Load rc0 (world s) = (Ok rc, w) → utils.Plan rc = true) →
  (∀ region input w,
     DescribeCluster EKS1 region input w = DescribeCluster EKS2 region input w) →
  utils.doEnableLogging EKS1 wait1 Load IsSupportedRegion ErrUnsupportedRegion
                        CheckAuth LogObj rc0 s
  = utils.doEnableLogging EKS2 wait2 Load IsSupportedRegion ErrUnsupportedRegion
                          CheckAuth LogObj rc0 s.
Proof.
  intros Hplan Hdescribe.
  unfold utils.doEnableLogging, mbind, M_bind, call.
  destruct (Load rc0 (world s)) as [[rc|e|] w] eqn:Hload; [|done|done].
  specialize (Hplan rc w eq_refl).
  destruct (api.SetClusterConfigDefaults (utils.ClusterConfig rc)) as [cfg [e|]]; [done|].
  destruct (negb (IsSupportedRegion _)); [done|].
  destruct (log _ _) as [[[]|e|] s1]; [|done|done].
  destruct (CheckAuth _ _) as [[[]|e|] w2]; [|done|done].
  rewrite (GetCurrentClusterConfigForLogging_ext EKS1 EKS2) by done.
  destruct (eks.GetCurrentClusterConfigForLogging EKS2 _ _ _) as [[current|e|] s2];
    [|done|done].
  by apply reconcileLogging_plan.
Qed.

Lemma doEnableLogging_plan_mode_witness :
  utils.doEnableLogging (mockEKS (describeOutput "ACTIVE") noClusters updateOutput)
    mockWait mockLoad anyRegion unsupportedRegion mockCheckAuth mockLogObj
    (command ["api"] true) start
  = utils.doEnableLogging
      (mockEKS (describeOutput "ACTIVE") flakyListing (Err (ErrExternal "denied")))
      (λ _ _ _ w, (Err (ErrExternal "gave up"), w))
      mockLoad anyRegion unsupportedRegion mockCheckAuth mockLogObj
      (command ["api"] true) start.
Proof.
  apply (doEnableLogging_plan_mode
           (mockEKS (describeOutput "ACTIVE") noClusters updateOutput)
           (mockEKS (describeOutput "ACTIVE") flakyListing (Err (ErrExternal "denied")))).
  - intros rc w [= <- <-]. reflexivity.
  - reflexivity.
Defined.

(** X12: when the loaded configuration declares, without any wildcard, a
    name that is not a supported type, [doEnableLogging] returns the
    unknown-log-type error for a declared unsupported name right after
    loading: the region is not checked, nothing is logged, and neither the
    authentication check nor the provider is called. *)
Theorem doEnableLogging_unknown_log_type {W : Type} (EKS : EKSAPI W)
    waiters_Wait Load IsSupportedRegion ErrUnsupportedRegion CheckAuth LogObj
    (rc0 rc : utils.ResourceCmd) (declared : list string) (s : State W) (w1 : W) :
  Load rc0 (world s) = (Ok rc, w1) →
  api.declaredEnableTypes (utils.ClusterConfig rc) = Some declared →
  "all" ∉ declared → "*" ∉ declared →
  ¬ Forall (λ x, x ∈ api.SupportedCloudWatchClusterLoggingTypes) declared →
  ∃ x, (x ∈ declared)
       ∧ (x ∉ api.SupportedCloudWatchClusterLoggingTypes)
       ∧ utils.doEnableLogging EKS waiters_Wait Load IsSupportedRegion ErrUnsupportedRegion
                               CheckAuth LogObj rc0 s
         = (Err (ErrLogTypeUnknown x), {| world := w1; logs := logs s |}).
Proof.
  intros Hload Hdecl Hall Hstar Hunknown.
  unfold utils.doEnableLogging, mbind, M_bind, call. rewrite Hload.
  unfold api.SetClusterConfigDefaults. rewrite Hdecl.
  rewrite expandWildcards_plain by (intros x Hx; split; intros ->; tauto).
  destruct (api.validateLogTypes declared) as [e|] eqn:Hval.
  - destruct (validateLogTypes_Some _ _ Hval) as (x & Hin & Hx & ->).
    exists x. by repeat split.
  - by apply validateLogTypes_None in Hval.
Qed.

Lemma doEnableLogging_unknown_log_type_witness :
  ∃ x, (x ∈ ["audit"; "anything"])
       ∧ (x ∉ api.SupportedCloudWatchClusterLoggingTypes)
       ∧ utils.doEnableLogging (mockEKS (describeOutput "ACTIVE") noClusters updateOutput)
           mockWait mockLoad anyRegion unsupportedRegion mockCheckAuth mockLogObj
           (command ["audit"; "anything"] false) start
         = (Err (ErrLogTypeUnknown x), {| world := []; logs := [] |}).
Proof.
  apply (doEnableLogging_unknown_log_type
           (mockEKS (describeOutput "ACTIVE") noClusters updateOutput)
           mockWait mockLoad anyRegion unsupportedRegion mockCheckAuth mockLogObj
           (command ["audit"; "anything"] false) (command ["audit"; "anything"] false)
           ["audit"; "anything"] start []).
  - reflexivity.
  - reflexivity.
  - compute_done.
  - compute_done.
  - compute_done.
Defined.

(** ** The flags of [enable-logging] *)

Lemma filter_ext_in {A} (P Q : A → Prop) `{∀ x, Decision (P x)} `{∀ x, Decision (Q x)}
    (l : list A) :
  (∀ x, x ∈ l → P x ↔ Q x) → filter P l = filter Q l.
Proof.
  induction l as [|x l IH]; intros Hext; [done|].
  rewrite !filter_cons.
  rewrite IH by (intros y Hy; apply Hext; by apply list_elem_of_further).
  destruct (decide (P x)) as [HP|HP], (decide (Q x)) as [HQ|HQ]; try done.
  - exfalso. apply HQ, (Hext x); [apply list_elem_of_here | done].
  - exfalso. apply HP, (Hext x); [apply list_elem_of_here | done].
Qed.

Lemma preRun_second_loop l enableTypes (disabled : gset string) :
  foldl (λ enableTypes logType,
           if negb (sets.Has disabled logType)
           then enableTypes ++ [logType]
           else enableTypes)
        enableTypes l
  = enableTypes ++ filter (λ t, t ∉ disabled) l.
Proof.
  revert enableTypes. induction l as [|t l IH]; intros enableTypes; simpl.
  - by rewrite app_nil_r.
  - rewrite IH, filter_cons. destruct (sets.Has disabled t) eqn:Hhas; simpl.
    + apply sets_Has_true in Hhas. by rewrite decide_False by tauto.
    + apply sets_Has_false in Hhas. rewrite decide_True by done.
      by rewrite <- app_assoc.
Qed.

Lemma filter_none {A} (P : A → Prop) `{∀ x, Decision (P x)} (l : list A) :
  Forall (λ x, ¬ P x) l → filter P l = [].
Proof.
  induction 1 as [|x l Hx _ IH]; [done|].
  rewrite filter_cons. by rewrite decide_False.
Qed.

Section PreRun.

Variable allChanged : bool.
Variable flags : string → utils.Flag.

Lemma preRun_first_loop l enableTypes enableAll (disabled : gset string) :
  foldl (utils.preRunFlag allChanged flags) (enableTypes, enableAll, disabled) l
  = (enableTypes ++ filter (switchedOn flags) l,
     enableAll && (allChanged || bool_decide (Forall (λ t, ¬ switchedOn flags t) l)),
     disabled ∪ list_to_set (filter (switchedOff flags) l)).
Proof.
  revert enableTypes enableAll disabled.
  induction l as [|t l IH]; intros enableTypes enableAll disabled.
  - cbn [foldl]. rewrite !filter_nil, app_nil_r. f_equal; [f_equal|set_solver].
    rewrite (bool_decide_eq_true_2 (Forall _ [])) by constructor.
    by rewrite orb_true_r, andb_true_r.
  - cbn [foldl]. unfold utils.preRunFlag at 2. rewrite !filter_cons.
    destruct (utils.Value (flags t)) eqn:Hvalue.
    + rewrite andb_false_r, IH.
      rewrite (decide_True (P := switchedOn flags t)) by exact Hvalue.
      rewrite (decide_False (P := switchedOff flags t))
        by (intros [_ Hoff]; congruence).
      rewrite <- app_assoc.
      rewrite (bool_decide_eq_false_2 (Forall _ (t :: l))).
      2:{ intros Hall. apply Forall_cons in Hall as [Hon _]. by apply Hon. }
      by destruct allChanged, enableAll.
    + rewrite andb_true_r, IH.
      rewrite (decide_False (P := switchedOn flags t))
        by (unfold switchedOn; congruence).
      assert (bool_decide (Forall (λ t0, ¬ switchedOn flags t0) (t :: l))
              = bool_decide (Forall (λ t0, ¬ switchedOn flags t0) l)) as ->.
      { apply bool_decide_ext. rewrite Forall_cons. unfold switchedOn at 1.
        split; [tauto | intros; split; [congruence | done]]. }
      destruct (utils.Changed (flags t)) eqn:Hchanged.
      * rewrite (decide_True (P := switchedOff flags t)) by done.
        unfold sets.Insert. simpl. f_equal. set_solver.
      * rewrite (decide_False (P := switchedOff flags t))
          by (intros [Hoff _]; congruence).
        done.
Qed.

End PreRun.

Lemma enableLoggingPreRun_closed_form_aux (all : utils.Flag) (flags : string → utils.Flag)
    (enableTypes : list string) :
  let U := api.SupportedCloudWatchClusterLoggingTypes in
  utils.enableLoggingPreRun all flags enableTypes
  = enableTypes ++ filter (switchedOn flags) U ++
      (if utils.Value all
          && (utils.Changed all || bool_decide (Forall (λ t, ¬ switchedOn flags t) U))
       then filter (λ t, ¬ switchedOff flags t) U
       else []).
Proof.
  intros U.
  unfold utils.enableLoggingPreRun. fold U. rewrite preRun_first_loop.
  destruct (utils.Value all && _).
  - rewrite preRun_second_loop, <- app_assoc. do 2 f_equal.
    apply filter_ext_in. intros t Ht.
    rewrite sets_NewString_list_to_set, elem_of_union, !elem_of_list_to_set,
      list_elem_of_filter, elem_of_nil.
    tauto.
  - by rewrite app_nil_r.
Qed.

(** X13: the list the pre-run of [enable-logging] leaves is the list it
    found, then the log types whose flag is true, in canonical order, and
    then, when [all] is true and either was given or no log type flag is
    true, the log types that were not switched off. So with [all] false,
    or with [all] not given and some flag true, exactly the flagged types
    are added; with [all] true and no flag true, all types but the ones
    switched off. *)
Theorem enableLoggingPreRun_closed_form (all : utils.Flag) (flags : string → utils.Flag)
    (enableTypes : list string) :
  let U := api.SupportedCloudWatchClusterLoggingTypes in
  utils.enableLoggingPreRun all flags enableTypes
  = enableTypes ++ filter (switchedOn flags) U ++
      (if utils.Value all
          && (utils.Changed all || bool_decide (Forall (λ t, ¬ switchedOn flags t) U))
       then filter (λ t, ¬ switchedOff flags t) U
       else [])
  ∧ (utils.Value all = false →
     utils.enableLoggingPreRun all flags enableTypes
     = enableTypes ++ filter (switchedOn flags) U)
  ∧ (utils.Changed all = false → Exists (switchedOn flags) U →
     utils.enableLoggingPreRun all flags enableTypes
     = enableTypes ++ filter (switchedOn flags) U)
  ∧ (utils.Value all = true → Forall (λ t, ¬ switchedOn flags t) U →
     utils.enableLoggingPreRun all flags enableTypes
     = enableTypes ++ filter (λ t, ¬ switchedOff flags t) U).
Proof.
  intros U.
  pose proof (enableLoggingPreRun_closed_form_aux all flags enableTypes) as Hclosed.
  cbn zeta in Hclosed. fold U in Hclosed.
  split; [exact Hclosed|]. rewrite Hclosed. split; [|split].
  - intros ->. simpl. by rewrite app_nil_r.
  - intros -> Hon. rewrite (bool_decide_eq_false_2 (Forall _ U)).
    + rewrite andb_false_r. by rewrite app_nil_r.
    + intros Hall. apply Exists_exists in Hon as (t & Hin & Hon).
      rewrite Forall_forall in Hall. by apply (Hall t).
  - intros -> Hall. rewrite (bool_decide_eq_true_2 (Forall _ U)) by done.
    rewrite orb_true_r. simpl. f_equal.
    assert (filter (switchedOn flags) U = []) as ->; [|done].
    by apply filter_none.
Qed.

Lemma enableLoggingPreRun_closed_form_witness :
  utils.enableLoggingPreRun (notGiven true) someFlags [] = ["audit"]
  ∧ utils.enableLoggingPreRun (notGiven true) onlyOffFlags []
    = ["audit"; "authenticator"; "controllerManager"; "scheduler"]
  ∧ utils.enableLoggingPreRun (given false) onlyOffFlags [] = [].
Proof.
  split; [|split].
  - apply (proj1 (proj2 (proj2 (enableLoggingPreRun_closed_form
                                  (notGiven true) someFlags [])))).
    + reflexivity.
    + compute_done.
  - apply (proj2 (proj2 (proj2 (enableLoggingPreRun_closed_form
                                  (notGiven true) onlyOffFlags [])))).
    + reflexivity.
    + compute_done.
  - apply (proj1 (proj2 (enableLoggingPreRun_closed_form (given false) onlyOffFlags []))).
    reflexivity.
Defined.

(** X14: the pre-run only adds supported log types, so a configuration
    whose list was valid before the pre-run passes
    [SetClusterConfigDefaults] after it without error and without
    change. *)
Theorem enableLoggingPreRun_valid (all : utils.Flag) (flags : string → utils.Flag)
    (enableTypes : list string) (cfg : api.ClusterConfig) :
  Forall (λ x, x ∈ api.SupportedCloudWatchClusterLoggingTypes) enableTypes →
  api.declaredEnableTypes cfg = Some (utils.enableLoggingPreRun all flags enableTypes) →
  Forall (λ x, x ∈ api.SupportedCloudWatchClusterLoggingTypes)
         (utils.enableLoggingPreRun all flags enableTypes)
  ∧ api.SetClusterConfigDefaults cfg = (cfg, None).
Proof.
  intros Hvalid Hdecl.
  assert (Forall (λ x, x ∈ api.SupportedCloudWatchClusterLoggingTypes)
                 (utils.enableLoggingPreRun all flags enableTypes)) as Hresult.
  { rewrite (enableLoggingPreRun_closed_form_aux all flags enableTypes).
    rewrite !Forall_app. split; [done|]. split.
    - apply Forall_forall. by intros x [_ ?]%list_elem_of_filter.
    - destruct (_ && _); [|constructor].
      apply Forall_forall. by intros x [_ ?]%list_elem_of_filter. }
  split; [done|].
  unfold api.SetClusterConfigDefaults. rewrite Hdecl.
  rewrite expandWildcards_plain.
  - cbn zeta. rewrite validateLogTypes_known by done.
    by rewrite setEnableTypes_same.
  - intros x Hx. rewrite Forall_forall in Hresult. specialize (Hresult x Hx).
    split; intros ->; by apply isUnknown_false in Hresult.
Qed.

Lemma enableLoggingPreRun_valid_witness :
  api.SetClusterConfigDefaults
    (config (utils.enableLoggingPreRun (given true) someFlags ["scheduler"]))
  = (config (utils.enableLoggingPreRun (given true) someFlags ["scheduler"]), None).
Proof.
  apply (enableLoggingPreRun_valid (given true) someFlags ["scheduler"]
           (config (utils.enableLoggingPreRun (given true) someFlags ["scheduler"]))).
  - compute_done.
  - reflexivity.
Defined.

(** ** Defaults of a node group *)

Section NodeGroups.

Variable HasMixedInstances : api.NodeGroup → bool.
Variable countEnabledFields : list (option string) → nat.
Variables DefaultNodeType DefaultNodeImageFamily : string.
Variables DefaultNodeSSHPublicKeyPath DefaultNodeVolumeType : string.

Lemma orDisabled_is_Some p : is_Some (api.orDisabled p).
Proof. destruct p; simpl; eauto. Qed.

Lemma orEnabled_is_Some p : is_Some (api.orEnabled p).
Proof. destruct p; simpl; eauto. Qed.

Lemma orDisabled_keeps p b : p = Some b → api.orDisabled p = Some b.
Proof. by intros ->. Qed.

Lemma orEnabled_keeps p b : p = Some b → api.orEnabled p = Some b.
Proof. by intros ->. Qed.

Lemma defaultSSH_before (ng : api.NodeGroup) :
  api.defaultSSH countEnabledFields DefaultNodeSSHPublicKeyPath (api.NG_SSH ng)
  = let ssh := sshBefore ng in
    if decide (0 < countEnabledFields (sshKeyFields ssh))
    then {| api.SSH_Allow := Some true;
            api.SSH_PublicKeyPath := api.SSH_PublicKeyPath ssh;
            api.SSH_PublicKey := api.SSH_PublicKey ssh;
            api.SSH_PublicKeyName := api.SSH_PublicKeyName ssh |}
    else if api.IsEnabled (api.SSH_Allow ssh)
    then {| api.SSH_Allow := Some true;
            api.SSH_PublicKeyPath := Some DefaultNodeSSHPublicKeyPath;
            api.SSH_PublicKey := api.SSH_PublicKey ssh;
            api.SSH_PublicKeyName := api.SSH_PublicKeyName ssh |}
    else {| api.SSH_Allow := Some false;
            api.SSH_PublicKeyPath := api.SSH_PublicKeyPath ssh;
            api.SSH_PublicKey := api.SSH_PublicKey ssh;
            api.SSH_PublicKeyName := api.SSH_PublicKeyName ssh |}.
Proof.
  unfold api.defaultSSH, sshBefore, sshKeyFields.
  destruct (api.NG_SSH ng) as [[allow path key name]|]; cbn zeta;
    cbn [api.SSH_Allow api.SSH_PublicKeyPath api.SSH_PublicKey api.SSH_PublicKeyName];
    case_decide; try done.
  - destruct allow as [[]|]; done.
Qed.

End NodeGroups.

(** X15: [SetNodeGroupDefaults] never fails, and it leaves a node group
    with an AMI, with security groups, SSH and IAM sections, with both
    security group switches, the SSH switch and all ten addon policies set,
    and with a volume type; instance type, AMI family and volume type are
    not empty when the respective default is not empty. *)
Theorem SetNodeGroupDefaults_fills (HasMixedInstances : api.NodeGroup → bool)
    (countEnabledFields : list (option string) → nat)
    (DefaultNodeType DefaultNodeImageFamily : string)
    (DefaultNodeSSHPublicKeyPath DefaultNodeVolumeType : string)
    (ng : api.NodeGroup) :
  let result :=
    api.SetNodeGroupDefaults HasMixedInstances countEnabledFields
      DefaultNodeType DefaultNodeImageFamily
      DefaultNodeSSHPublicKeyPath DefaultNodeVolumeType ng in
  result.2 = None
  ∧ api.NG_AMI result.1 ≠ EmptyString
  ∧ is_Some (api.NG_VolumeType result.1)
  ∧ (DefaultNodeType ≠ EmptyString → api.NG_InstanceType result.1 ≠ EmptyString)
  ∧ (DefaultNodeImageFamily ≠ EmptyString → api.NG_AMIFamily result.1 ≠ EmptyString)
  ∧ (DefaultNodeVolumeType ≠ EmptyString →
     api.IsSetAndNonEmptyString (api.NG_VolumeType result.1) = true)
  ∧ ∃ sgs ssh iam,
      api.NG_SecurityGroups result.1 = Some sgs
      ∧ api.NG_SSH result.1 = Some ssh
      ∧ api.NG_IAM result.1 = Some iam
      ∧ is_Some (api.SGs_WithLocal sgs)
      ∧ is_Some (api.SGs_WithShared sgs)
      ∧ is_Some (api.SSH_Allow ssh)
      ∧ Forall (λ policy, is_Some (policy (api.IAM_WithAddonPolicies iam))) addonPolicies.
Proof.
  intros result. subst result. unfold api.SetNodeGroupDefaults.
  cbn [fst snd api.NG_AMI api.NG_VolumeType api.NG_InstanceType api.NG_AMIFamily
       api.NG_SecurityGroups api.NG_SSH api.NG_IAM api.defaultInstance].
  split; [done|]. split.
  { destruct (String.eqb_spec (api.NG_AMI ng) EmptyString); done. }
  split.
  { destruct (api.NG_VolumeType ng) as [v|]; simpl; [|eauto].
    destruct (negb _); eauto. }
  split.
  { intros Hdefault.
    destruct (String.eqb_spec (api.NG_InstanceType ng) EmptyString); [|done].
    by destruct (HasMixedInstances ng). }
  split.
  { intros Hdefault.
    by destruct (String.eqb_spec (api.NG_AMIFamily ng) EmptyString). }
  split.
  { intros Hdefault.
    destruct (api.IsSetAndNonEmptyString (api.NG_VolumeType ng)) eqn:Hset; simpl; [done|].
    by apply negb_true_iff, String.eqb_neq. }
  eexists _, _, _. split; [done|]. split; [done|]. split; [done|].
  split; [apply orEnabled_is_Some|]. split; [apply orEnabled_is_Some|].
  split.
  - rewrite defaultSSH_before. cbn zeta.
    case_decide; [eauto|]. destruct (api.IsEnabled _); eauto.
  - unfold addonPolicies, api.defaultIAM. cbn.
    repeat constructor; apply orDisabled_is_Some.
Qed.

Lemma SetNodeGroupDefaults_fills_witness :
  api.NG_InstanceType
    (api.SetNodeGroupDefaults neverMixed countSet "m5.large" "AmazonLinux2"
       "id_rsa.pub" "gp2" emptyNodeGroup).1 ≠ EmptyString
  ∧ api.NG_AMIFamily
      (api.SetNodeGroupDefaults neverMixed countSet "m5.large" "AmazonLinux2"
         "id_rsa.pub" "gp2" emptyNodeGroup).1 ≠ EmptyString
  ∧ api.IsSetAndNonEmptyString
      (api.NG_VolumeType
         (api.SetNodeGroupDefaults neverMixed countSet "m5.large" "AmazonLinux2"
            "id_rsa.pub" "gp2" emptyNodeGroup).1) = true.
Proof.
  pose proof (SetNodeGroupDefaults_fills neverMixed countSet "m5.large" "AmazonLinux2"
                "id_rsa.pub" "gp2" emptyNodeGroup) as (_ & _ & _ & Htype & Hfamily & Hvolume & _).
  split; [apply Htype; discriminate|].
  split; [apply Hfamily; discriminate|].
  apply Hvolume; discriminate.
Defined.

(** X16: [SetNodeGroupDefaults] keeps what was set: a non-empty instance
    type, AMI family and AMI, a volume type that is set and not empty, the
    attached security group ids and the security group switches that were
    set, every addon policy that was set, and the public key and key name
    of the SSH section. *)
Theorem SetNodeGroupDefaults_keeps (HasMixedInstances : api.NodeGroup → bool)
    (countEnabledFields : list (option string) → nat)
    (DefaultNodeType DefaultNodeImageFamily : string)
    (DefaultNodeSSHPublicKeyPath DefaultNodeVolumeType : string)
    (ng : api.NodeGroup) :
  let result :=
    (api.SetNodeGroupDefaults HasMixedInstances countEnabledFields
       DefaultNodeType DefaultNodeImageFamily
       DefaultNodeSSHPublicKeyPath DefaultNodeVolumeType ng).1 in
  (api.NG_InstanceType ng ≠ EmptyString → api.NG_InstanceType result = api.NG_InstanceType ng)
  ∧ (api.NG_AMIFamily ng ≠ EmptyString → api.NG_AMIFamily result = api.NG_AMIFamily ng)
  ∧ (api.NG_AMI ng ≠ EmptyString → api.NG_AMI result = api.NG_AMI ng)
  ∧ (api.IsSetAndNonEmptyString (api.NG_VolumeType ng) = true →
     api.NG_VolumeType result = api.NG_VolumeType ng)
  ∧ (∀ sgs, api.NG_SecurityGroups ng = Some sgs →
       ∃ sgs', api.NG_SecurityGroups result = Some sgs'
               ∧ api.SGs_AttachIDs sgs' = api.SGs_AttachIDs sgs
               ∧ (∀ b, api.SGs_WithLocal sgs = Some b → api.SGs_WithLocal sgs' = Some b)
               ∧ (∀ b, api.SGs_WithShared sgs = Some b → api.SGs_WithShared sgs' = Some b))
  ∧ (∀ iam, api.NG_IAM ng = Some iam →
       ∃ iam', api.NG_IAM result = Some iam'
               ∧ Forall (λ policy, ∀ b,
                           policy (api.IAM_WithAddonPolicies iam) = Some b →
                           policy (api.IAM_WithAddonPolicies iam') = Some b)
                        addonPolicies)
  ∧ (∃ ssh', api.NG_SSH result = Some ssh'
             ∧ api.SSH_PublicKey ssh' = api.SSH_PublicKey (sshBefore ng)
             ∧ api.SSH_PublicKeyName ssh' = api.SSH_PublicKeyName (sshBefore ng)).
Proof.
  intros result. subst result. unfold api.SetNodeGroupDefaults.
  cbn [fst snd api.NG_AMI api.NG_VolumeType api.NG_InstanceType api.NG_AMIFamily
       api.NG_SecurityGroups api.NG_SSH api.NG_IAM api.defaultInstance].
  split; [by intros ->%String.eqb_neq|].
  split; [by intros ->%String.eqb_neq|].
  split; [by intros ->%String.eqb_neq|].
  split; [by intros ->|].
  split.
  { intros sgs ->. eexists. split; [done|]. simpl.
    split; [done|]. split; apply orEnabled_keeps. }
  split.
  { intros iam ->. eexists. split; [done|].
    unfold addonPolicies, api.defaultIAM. cbn.
    repeat constructor; apply orDisabled_keeps. }
  eexists. split; [done|]. rewrite defaultSSH_before. cbn zeta.
  case_decide; [done|]. by destruct (api.IsEnabled _).
Qed.

Lemma SetNodeGroupDefaults_keeps_witness :
  api.NG_InstanceType
    (api.SetNodeGroupDefaults neverMixed countSet "t3.medium" "AmazonLinux2"
       "id_rsa.pub" "gp2" keyedNodeGroup).1 = "m5.large"
  ∧ api.NG_VolumeType
      (api.SetNodeGroupDefaults neverMixed countSet "t3.medium" "AmazonLinux2"
         "id_rsa.pub" "gp2" keyedNodeGroup).1 = Some "io1".
Proof.
  pose proof (SetNodeGroupDefaults_keeps neverMixed countSet "t3.medium" "AmazonLinux2"
                "id_rsa.pub" "gp2" keyedNodeGroup) as (Htype & _ & _ & Hvolume & _).
  split; [apply Htype; discriminate | apply Hvolume; reflexivity].
Defined.

(** X17: how [SetNodeGroupDefaults] settles SSH: when
    [countEnabledFields] of key name, key path and key is positive, SSH is
    allowed, even if it had been switched off, and the key path is kept;
    when it is zero and SSH was allowed, SSH stays allowed and the key path
    becomes the default path; otherwise SSH is switched off and the key
    path is kept. A node group without SSH section starts from one with
    SSH switched off and no key. *)
Theorem SetNodeGroupDefaults_ssh (HasMixedInstances : api.NodeGroup → bool)
    (countEnabledFields : list (option string) → nat)
    (DefaultNodeType DefaultNodeImageFamily : string)
    (DefaultNodeSSHPublicKeyPath DefaultNodeVolumeType : string)
    (ng : api.NodeGroup) :
  ∃ ssh',
    api.NG_SSH (api.SetNodeGroupDefaults HasMixedInstances countEnabledFields
                  DefaultNodeType DefaultNodeImageFamily
                  DefaultNodeSSHPublicKeyPath DefaultNodeVolumeType ng).1 = Some ssh'
    ∧ (0 < countEnabledFields (sshKeyFields (sshBefore ng)) →
       api.SSH_Allow ssh' = Some true
       ∧ api.SSH_PublicKeyPath ssh' = api.SSH_PublicKeyPath (sshBefore ng))
    ∧ (countEnabledFields (sshKeyFields (sshBefore ng)) = 0 →
       api.IsEnabled (api.SSH_Allow (sshBefore ng)) = true →
       api.SSH_Allow ssh' = Some true
       ∧ api.SSH_PublicKeyPath ssh' = Some DefaultNodeSSHPublicKeyPath)
    ∧ (countEnabledFields (sshKeyFields (sshBefore ng)) = 0 →
       api.IsEnabled (api.SSH_Allow (sshBefore ng)) = false →
       api.SSH_Allow ssh' = Some false
       ∧ api.SSH_PublicKeyPath ssh' = api.SSH_PublicKeyPath (sshBefore ng))
    ∧ (api.NG_SSH ng = None →
       sshBefore ng = {| api.SSH_Allow := Some false; api.SSH_PublicKeyPath := None;
                         api.SSH_PublicKey := None; api.SSH_PublicKeyName := None |}).
Proof.
  unfold api.SetNodeGroupDefaults.
  cbn [fst api.NG_SSH api.defaultInstance].
  eexists. split; [done|]. rewrite defaultSSH_before. cbn zeta.
  split; [|split; [|split]].
  - intros Hcount. by rewrite decide_True.
  - intros Hcount Hallow. rewrite decide_False by lia. by rewrite Hallow.
  - intros Hcount Hallow. rewrite decide_False by lia. by rewrite Hallow.
  - unfold sshBefore. by intros ->.
Qed.

Lemma SetNodeGroupDefaults_ssh_witness :
  ∃ ssh',
    api.NG_SSH (api.SetNodeGroupDefaults neverMixed countSet "t3.medium" "AmazonLinux2"
                  "id_rsa.pub" "gp2" keyedNodeGroup).1 = Some ssh'
    ∧ api.SSH_Allow ssh' = Some true
    ∧ api.SSH_PublicKeyPath ssh' = None.
Proof.
  destruct (SetNodeGroupDefaults_ssh neverMixed countSet "t3.medium" "AmazonLinux2"
              "id_rsa.pub" "gp2" keyedNodeGroup) as (ssh' & Hssh & Hkeyed & _).
  exists ssh'. split; [exact Hssh|]. apply Hkeyed. vm_compute. lia.
Defined.

(** ** The id columns of the summary table *)

Section IdColumns.

Lemma collected_ids ids (acc : gset string) x :
  x ∈ foldl (λ acc id,
               if api.IsSetAndNonEmptyString id
               then sets.Insert acc [default EmptyString id]
               else acc) acc ids
  ↔ x ∈ acc ∨ (Some x ∈ ids ∧ x ≠ EmptyString).
Proof.
  revert acc. induction ids as [|[id|] ids IH]; intros acc; simpl.
  - rewrite elem_of_nil. tauto.
  - rewrite IH, elem_of_cons. destruct (String.eqb_spec id EmptyString) as [->|Hne]; simpl.
    + split; [tauto|]. intros [?|[[[= ->]|?] ?]]; tauto.
    + unfold sets.Insert. simpl. rewrite elem_of_union, elem_of_singleton.
      split.
      * intros [[->|?]|?]; [right; split; [by left|done]|tauto|tauto].
      * intros [?|[[[= ->]|?] ?]]; tauto.
  - rewrite IH, elem_of_cons. split; [tauto|]. intros [?|[[?|?] ?]]; [tauto|done|tauto].
Qed.

End IdColumns.

(** X18: the SUBNETS and SECURITYGROUPS columns join, with commas, the
    ids that are set and not empty, each once and in ascending order; so
    two lists with the same non-empty ids give the same column, whatever
    their order, their repetitions and their nil or empty entries. *)
Theorem idsColumn_set (ids : list (option string)) :
  (∃ l, eks.idsColumn ids = String.concat "," l
        ∧ Sorted String.le l ∧ NoDup l
        ∧ ∀ x, x ∈ l ↔ (Some x ∈ ids ∧ x ≠ EmptyString))
  ∧ ∀ ids',
      (∀ x, x ≠ EmptyString → Some x ∈ ids ↔ Some x ∈ ids') →
      eks.idsColumn ids = eks.idsColumn ids'.
Proof.
  split.
  - eexists. split; [done|]. split; [apply sets_List_Sorted|].
    split; [apply sets_List_NoDup|]. intros x.
    rewrite sets_elem_of_List, collected_ids, sets_NewString_list_to_set.
    set_solver.
  - intros ids' Hsame. unfold eks.idsColumn. do 2 f_equal.
    apply set_eq. intros x. rewrite !collected_ids.
    destruct (decide (x = EmptyString)) as [->|Hx]; [tauto|].
    rewrite (Hsame x Hx). tauto.
Qed.

Lemma idsColumn_set_witness :
  eks.idsColumn [Some "subnet-b"; None; Some "subnet-a"; Some EmptyString; Some "subnet-b"]
  = eks.idsColumn [Some "subnet-a"; Some "subnet-b"].
Proof.
  apply (idsColumn_set [Some "subnet-b"; None; Some "subnet-a"; Some EmptyString;
                        Some "subnet-b"]).
  intros x Hx. rewrite !elem_of_cons, !elem_of_nil. naive_solver.
Defined.

(** ** Further edge cases of the reconciliation *)

(** X19: a declared list with a wildcard is accepted whatever else it
    holds: names that are not supported types are dropped with the rest of
    the list, and no error is returned. *)
Theorem SetClusterConfigDefaults_wildcard_accepts (cfg : api.ClusterConfig)
    (declared : list string) :
  api.declaredEnableTypes cfg = Some declared →
  "all" ∈ declared ∨ "*" ∈ declared →
  api.SetClusterConfigDefaults cfg
  = (api.setEnableTypes cfg api.SupportedCloudWatchClusterLoggingTypes, None).
Proof.
  intros Hdecl Hw. unfold api.SetClusterConfigDefaults. rewrite Hdecl.
  rewrite expandWildcards_wildcard; [done|].
  destruct Hw; [exists "all" | exists "*"]; auto.
Qed.

Lemma SetClusterConfigDefaults_wildcard_accepts_witness :
  api.SetClusterConfigDefaults (config ["anything"; "*"])
  = (config api.SupportedCloudWatchClusterLoggingTypes, None).
Proof.
  apply (SetClusterConfigDefaults_wildcard_accepts (config ["anything"; "*"])
           ["anything"; "*"]).
  - reflexivity.
  - right. compute_done.
Defined.

(** X20: [doEnableLogging] is idempotent on the provider's side: when the
    cluster is ACTIVE and carries the logging setups that an update for
    the loaded configuration sends, the command, in plan mode or not,
    finds the configuration up to date, logs that and returns nil without
    an update call. *)
Theorem doEnableLogging_up_to_date {W : Type} (EKS : EKSAPI W)
    waiters_Wait Load IsSupportedRegion ErrUnsupportedRegion CheckAuth LogObj
    (rc0 rc : utils.ResourceCmd) (cfg : api.ClusterConfig) (s : State W)
    (name : option string) (w1 w2 w3 w4 : W) :
  Load rc0 (world s) = (Ok rc, w1) →
  api.SetClusterConfigDefaults (utils.ClusterConfig rc) = (cfg, None) →
  IsSupportedRegion (eks.New (utils.ProviderConfig rc)) = true →
  CheckAuth (eks.New (utils.ProviderConfig rc)) w1 = (Ok tt, w2) →
  DescribeCluster EKS (eks.region (eks.New (utils.ProviderConfig rc)))
    (describeInput (api.Metadata cfg)) w2
  = (Ok {| awseks.DescribeCluster_Cluster :=
             Some (activeCluster name
                     (awseks.UpdateClusterConfig_Logging (eks.loggingUpdateInput cfg))) |},
     w3) →
  LogObj cfg w3 = (Ok tt, w4) →
  utils.doEnableLogging EKS waiters_Wait Load IsSupportedRegion ErrUnsupportedRegion
                        CheckAuth LogObj rc0 s
  = (Ok tt,
     {| world := w4;
        logs := logs s ++
          [LogInfoRegion (api.Region (api.Metadata cfg));
           LogSuccessUpToDate (api.Name (api.Metadata cfg)) (api.Region (api.Metadata cfg));
           LogPlanModeWarning false] |}).
Proof.
  intros Hload Hdefaults Hregion Hauth Hdescribe Hlog.
  unfold utils.doEnableLogging, mbind, M_bind, call.
  rewrite Hload. cbn [world logs]. rewrite Hdefaults, Hregion.
  cbn [negb]. unfold log at 1. cbn [world logs]. rewrite Hauth.
  rewrite (GetCurrentClusterConfigForLogging_sent EKS _ _ _ cfg name w3) by exact Hdescribe.
  cbn [fst]. unfold utils.reconcileLogging, mbind, M_bind, call.
  rewrite updateRequired_own_sets. cbn [world logs]. rewrite Hlog.
  unfold log. cbn [world logs]. rewrite andb_false_r.
  by rewrite <- !app_assoc.
Qed.

Lemma doEnableLogging_up_to_date_witness :
  utils.doEnableLogging
    (mockEKS (Ok {| awseks.DescribeCluster_Cluster :=
                      Some (activeCluster (Some "testcluster")
                              (awseks.UpdateClusterConfig_Logging
                                 (eks.loggingUpdateInput (config ["scheduler"; "api"])))) |})
             noClusters (Err (ErrExternal "denied")))
    mockWait mockLoad anyRegion unsupportedRegion mockCheckAuth mockLogObj
    (command ["scheduler"; "api"] false) start
  = (Ok tt,
     {| world := [CallDescribeCluster "us-west-2"
                    (describeInput (api.Metadata (config ["scheduler"; "api"])));
                  CallLogObj (config ["scheduler"; "api"])];
        logs := [] ++
          [LogInfoRegion "us-west-2";
           LogSuccessUpToDate "testcluster" "us-west-2";
           LogPlanModeWarning false] |}).
Proof.
  apply (doEnableLogging_up_to_date
           (mockEKS (Ok {| awseks.DescribeCluster_Cluster :=
                             Some (activeCluster (Some "testcluster")
                                     (awseks.UpdateClusterConfig_Logging
                                        (eks.loggingUpdateInput
                                           (config ["scheduler"; "api"])))) |})
                    noClusters (Err (ErrExternal "denied")))
           mockWait mockLoad anyRegion unsupportedRegion mockCheckAuth mockLogObj
           (command ["scheduler"; "api"] false) (command ["scheduler"; "api"] false)
           (config ["scheduler"; "api"]) start (Some "testcluster")
           [] []
           [CallDescribeCluster "us-west-2"
              (describeInput (api.Metadata (config ["scheduler"; "api"])))]).
  - reflexivity.
  - reflexivity.
  - reflexivity.
  - reflexivity.
  - reflexivity.
  - reflexivity.
Defined.

(** ** The race of the ticker and the timer *)

Section SelectRace.

Variables (c : eks.ClusterProvider) (id : api.ClusterMeta).

(** The loop on [select]s is the loop on the cases they take. *)
Lemma waitSelects_cases sels :
  eks.waitLoop c id (eks.caseTaken <$> sels)
  = ((eks.waitSelects c id sels).1, eks.caseTaken <$> (eks.waitSelects c id sels).2).
Proof.
  induction sels as [|sel sels IH]; [done|].
  cbn [fmap list_fmap eks.waitLoop eks.waitSelects].
  destruct (eks.caseTaken sel) as [[e|]|]; [|done|done].
  exact IH.
Qed.

Lemma waitSelects_failing pre sels :
  Forall (λ sel, ∃ e, eks.caseTaken sel = eks.TickerC (Some e)) pre →
  eks.waitSelects c id (pre ++ sels) = eks.waitSelects c id sels.
Proof.
  induction 1 as [|sel pre [e He] _ IH]; [done|].
  cbn [app eks.waitSelects]. by rewrite He.
Qed.

Lemma waitSelects_returned sels r rest :
  eks.waitSelects c id sels = (eks.Returned r, rest) →
  ∃ pre sel,
    sels = pre ++ sel :: rest
    ∧ Forall (λ sel, ∃ e, eks.caseTaken sel = eks.TickerC (Some e)) pre
    ∧ ((eks.caseTaken sel = eks.TimerC
        ∧ r = Some (ErrTimedOut (api.Name id)
                      (api.Provider_WaitTimeout (eks.Provider c))))
       ∨ (eks.caseTaken sel = eks.TickerC None ∧ r = None)).
Proof.
  induction sels as [|sel sels IH]; cbn [eks.waitSelects]; [done|].
  destruct (eks.caseTaken sel) as [[e|]|] eqn:Hcase.
  - intros Hrest. destruct (IH Hrest) as (pre & last & -> & Hpre & Hlast).
    exists (sel :: pre), last. split; [done|]. split; [|done].
    constructor; eauto.
  - intros [= <- <-]. exists [], sel. split; [done|]. split; [constructor|]. by right.
  - intros [= <- <-]. exists [], sel. split; [done|]. split; [constructor|]. by left.
Qed.

Lemma timerStaysFired_later pre sel post :
  eks.timerStaysFired (pre ++ sel :: post) = true →
  eks.deadlinePassed sel = true →
  Forall (λ later, eks.timerFired later = true) post.
Proof.
  intros Hrun. assert (eks.timerStaysFired (sel :: post) = true) as Hsel.
  { clear -Hrun. induction pre as [|first pre IH]; [done|].
    apply IH. cbn [app eks.timerStaysFired] in Hrun.
    destruct (pre ++ sel :: post) eqn:Hrest; [by destruct pre|].
    by apply andb_true_iff in Hrun as [_ ?]. }
  clear Hrun. revert sel Hsel.
  induction post as [|next post IH]; intros sel Hsel Hpassed; [constructor|].
  cbn [eks.timerStaysFired] in Hsel. rewrite Hpassed in Hsel.
  apply andb_true_iff in Hsel as [Hnext Hrest]. simpl in Hnext.
  constructor; [done|]. apply (IH next Hrest).
  by destruct next.
Qed.

End SelectRace.

(** C8 as stated fails. After a failed first check, the first [select]
    finds both a tick and the fired timer; the runtime picks the tick,
    the check is made after the deadline and succeeds: the function
    returns nil and no timeout error, though no check had succeeded when
    the timer fired. When it picks the tick and the check fails, the loop
    polls again after the deadline. And a check that is in flight when the
    timer fires and then succeeds makes the function return nil as well.
    All three runs keep the timer channel ready once the timer has
    fired. So it does not hold that, whenever a [select] finds the timer
    fired after checks that all failed, the timeout error is returned
    there. *)
Lemma deadline_without_priority_counterexample :
  eks.timerFired (eks.BothPickTick None) = true
  ∧ eks.timerStaysFired [eks.BothPickTick None] = true
  ∧ eks.WaitForControlPlaneSelects testProvider (api.Metadata (config []))
      (Some (ErrExternal "refused")) [eks.BothPickTick None]
    = (eks.Returned None, [])
  ∧ eks.timerStaysFired
      [eks.BothPickTick (Some (ErrExternal "refused")); eks.BothPickTick None] = true
  ∧ eks.WaitForControlPlaneSelects testProvider (api.Metadata (config []))
      (Some (ErrExternal "refused"))
      [eks.BothPickTick (Some (ErrExternal "refused")); eks.BothPickTick None]
    = (eks.Returned None, [])
  ∧ eks.deadlinePassed (eks.TickOnly None true) = true
  ∧ eks.WaitForControlPlaneSelects testProvider (api.Metadata (config []))
      (Some (ErrExternal "refused")) [eks.TickOnly None true]
    = (eks.Returned None, [])
  ∧ ¬ (∀ e0 pre sel rest,
         Forall (λ sel, ∃ e, eks.caseTaken sel = eks.TickerC (Some e)) pre →
         eks.timerStaysFired (pre ++ sel :: rest) = true →
         eks.timerFired sel = true →
         eks.WaitForControlPlaneSelects testProvider (api.Metadata (config []))
           (Some e0) (pre ++ sel :: rest)
         = (eks.Returned (Some (ErrTimedOut "testcluster" 1500000000000%Z)), rest)).
Proof.
  repeat split.
  intros Hclaim.
  specialize (Hclaim (ErrExternal "refused") [] (eks.BothPickTick None) []
                     (Forall_nil_2 _) eq_refl eq_refl).
  discriminate Hclaim.
Qed.

(** C8, amended: in every run of [WaitForControlPlane], a first check that
    succeeds returns nil before any [select]. Each [select] takes a ready
    case: the timer case when only the timer has fired, the tick case when
    only a tick is pending, and either, by the choice of the runtime, when
    both are ready, so the deadline has no priority over a pending tick.
    When the timer case is taken after ticks whose checks all failed, the
    function returns the timeout error with the name of the cluster and
    the wait timeout, and polls no more; in particular it does so at the
    first [select] that finds the timer fired and no tick pending. When a
    tick case is taken and its check succeeds, it returns nil at that
    tick, also when the timer had fired already. It returns no error but
    the timeout error, and when it returns it has gone through [select]s
    with failing ticks and the one that ended it, and no further. Once the
    timer has fired, a tick case is taken only where both channels are
    ready and the runtime picks the tick. *)
Theorem WaitForControlPlane_select_race (c : eks.ClusterProvider) (id : api.ClusterMeta) :
  let timedOut :=
    ErrTimedOut (api.Name id) (api.Provider_WaitTimeout (eks.Provider c)) in
  let failing := λ sel, ∃ e, eks.caseTaken sel = eks.TickerC (Some e) in
  (∀ sels, eks.WaitForControlPlaneSelects c id None sels = (eks.Returned None, sels))
  ∧ (∀ e0 sels,
       eks.WaitForControlPlane c id (Some e0) (eks.caseTaken <$> sels)
       = ((eks.WaitForControlPlaneSelects c id (Some e0) sels).1,
          eks.caseTaken <$> (eks.WaitForControlPlaneSelects c id (Some e0) sels).2))
  ∧ (∀ e0 pre sel rest,
       Forall failing pre →
       sel = eks.TimerOnly ∨ sel = eks.BothPickTimer →
       eks.WaitForControlPlaneSelects c id (Some e0) (pre ++ sel :: rest)
       = (eks.Returned (Some timedOut), rest))
  ∧ (∀ e0 pre sel rest,
       Forall failing pre →
       eks.caseTaken sel = eks.TickerC None →
       eks.WaitForControlPlaneSelects c id (Some e0) (pre ++ sel :: rest)
       = (eks.Returned None, rest))
  ∧ (∀ e0 sels r rest,
       eks.WaitForControlPlaneSelects c id (Some e0) sels = (eks.Returned r, rest) →
       ∃ pre sel,
         sels = pre ++ sel :: rest
         ∧ Forall failing pre
         ∧ ((eks.caseTaken sel = eks.TimerC ∧ r = Some timedOut)
            ∨ (eks.caseTaken sel = eks.TickerC None ∧ r = None)))
  ∧ (∀ pre sel post,
       eks.timerStaysFired (pre ++ sel :: post) = true →
       eks.deadlinePassed sel = true →
       Forall (λ later, ∀ err, eks.caseTaken later = eks.TickerC err →
                               later = eks.BothPickTick err) post).
Proof.
  intros timedOut failing. split; [done|]. split; [|split; [|split; [|split]]].
  - intros e0 sels. apply waitSelects_cases.
  - intros e0 pre sel rest Hpre Hsel. cbn [eks.WaitForControlPlaneSelects].
    rewrite waitSelects_failing by exact Hpre.
    by destruct Hsel as [-> | ->].
  - intros e0 pre sel rest Hpre Hsel. cbn [eks.WaitForControlPlaneSelects].
    rewrite waitSelects_failing by exact Hpre.
    cbn [eks.waitSelects]. by rewrite Hsel.
  - intros e0 sels r rest. cbn [eks.WaitForControlPlaneSelects].
    apply waitSelects_returned.
  - intros pre sel post Hrun Hpassed.
    eapply Forall_impl; [exact (timerStaysFired_later pre sel post Hrun Hpassed)|].
    intros later Hfired err Hcase.
    destruct later; try discriminate; by injection Hcase as ->.
Qed.

Lemma WaitForControlPlane_select_race_witness :
  eks.WaitForControlPlaneSelects testProvider (api.Metadata (config []))
    (Some (ErrExternal "refused"))
    ([eks.TickOnly (Some (ErrExternal "refused")) false;
      eks.TickOnly (Some (ErrExternal "refused")) true]
     ++ eks.TimerOnly :: [eks.BothPickTick None])
  = (eks.Returned (Some (ErrTimedOut "testcluster" 1500000000000%Z)),
     [eks.BothPickTick None])
  ∧ Forall (λ later, ∀ err, eks.caseTaken later = eks.TickerC err →
                            later = eks.BothPickTick err)
           [eks.BothPickTick (Some (ErrExternal "refused")); eks.BothPickTimer].
Proof.
  split.
  - apply (proj1 (proj2 (proj2 (WaitForControlPlane_select_race testProvider
                                  (api.Metadata (config []))))) (ErrExternal "refused")).
    + repeat constructor; eexists; reflexivity.
    + by left.
  - apply (proj2 (proj2 (proj2 (proj2 (proj2 (WaitForControlPlane_select_race testProvider
                                  (api.Metadata (config []))))))) 
             [eks.TickOnly (Some (ErrExternal "refused")) false]
             (eks.TickOnly (Some (ErrExternal "refused")) true)).
    + reflexivity.
    + reflexivity.
Defined.
